(** * Digby temperature scripts: merge, persistence and aggregation

    A shallow embedding of the pandas scripts of the repository
    (update_digby_temperature.py, analyze_cold_days.py,
    analyze_extreme_cold_days.py,
    analyze_january_patterns.py, compare_march_november.py,
    visualize_wind.py, plot_interactive_wind.py), the properties the
    specification states about them, and further properties of the code.

    Conventions.
    - A calendar date is its proleptic Gregorian ordinal (what Python's
      [date.toordinal()] returns), so date comparison, [+ timedelta(days=1)]
      and "the next calendar day" are integer operations; the year and the
      month of a date are recovered as [dt.year] and [dt.month] do.
    - A DataFrame is the list of its rows in positional order; a cell that
      pandas holds as NaN (an empty CSV cell, or a column one of the
      concatenated frames lacks) is [None].
    - A float is the rational it stands for.  Storing and comparing floats
      is exact; the operations that round (a sum divided by a count,
      [round(x, 1)], the mean of a column, a difference of two cells) are
      not computed: they are the operations of [Float.Arithmetic], of which
      only what holds of IEEE-754 binary64 arithmetic however the sums are
      accumulated is assumed. *)

From Stdlib Require Import ZArith QArith Qminmax Lia Lqa.
From stdpp Require Import base decidable option list sorting strings gmap.

Local Open Scope Z_scope.

(** ** Calendar dates *)

Module Calendar.

Definition is_leap (year : Z) : bool :=
  (year mod 4 =? 0) && (negb (year mod 100 =? 0) || (year mod 400 =? 0)).

Definition days_before_year (year : Z) : Z :=
  let y := year - 1 in y * 365 + y / 4 - y / 100 + y / 400.

Definition DAYS_IN_MONTH : list Z :=
  [-1; 31; 28; 31; 30; 31; 30; 31; 31; 30; 31; 30; 31].

Definition DAYS_BEFORE_MONTH : list Z :=
  [-1; 0; 31; 59; 90; 120; 151; 181; 212; 243; 273; 304; 334].

Definition tab (t : list Z) (i : Z) : Z := nth (Z.to_nat i) t 0.

Definition days_in_month (year month : Z) : Z :=
  if (month =? 2) && is_leap year then 29 else tab DAYS_IN_MONTH month.

Definition days_before_month (year month : Z) : Z :=
  tab DAYS_BEFORE_MONTH month
  + (if (2 <? month) && is_leap year then 1 else 0).

(** [date(year, month, day).toordinal()] *)
Definition ymd2ord (year month day : Z) : Z :=
  days_before_year year + days_before_month year month + day.

Definition DI400Y : Z := 146097.
Definition DI100Y : Z := 36524.
Definition DI4Y : Z := 1461.

(** [date.fromordinal(n)] as (year, month, day) *)
Definition ord2ymd (n0 : Z) : Z * Z * Z :=
  let n := n0 - 1 in
  let n400 := n / DI400Y in
  let n := n mod DI400Y in
  let year := n400 * 400 + 1 in
  let n100 := n / DI100Y in
  let n := n mod DI100Y in
  let n4 := n / DI4Y in
  let n := n mod DI4Y in
  let n1 := n / 365 in
  let n := n mod 365 in
  let year := year + n100 * 100 + n4 * 4 + n1 in
  if (n1 =? 4) || (n100 =? 4) then (year - 1, 12, 31)
  else
    let leapyear := (n1 =? 3) && (negb (n4 =? 24) || (n100 =? 3)) in
    let month := Z.shiftr (n + 50) 5 in
    let preceding :=
      tab DAYS_BEFORE_MONTH month
      + (if (2 <? month) && leapyear then 1 else 0) in
    if n <? preceding then
      let month' := month - 1 in
      let preceding' :=
        preceding
        - (tab DAYS_IN_MONTH month'
           + (if (month' =? 2) && leapyear then 1 else 0)) in
      (year, month', n - preceding' + 1)
    else (year, month, n - preceding + 1).

Definition year_of (d : Z) : Z := (ord2ymd d).1.1.
Definition month_of (d : Z) : Z := (ord2ymd d).1.2.
Definition day_of (d : Z) : Z := (ord2ymd d).2.

(** [calendar.monthrange(year, month)[1]] *)
Definition monthrange_days (year month : Z) : Z := days_in_month year month.

End Calendar.

(** ** Records and data frames *)

(** One row of the persisted CSV (spec section 3).  The wind columns are
    absent from the files written by fetch_digby_temperature.py, hence the
    options. *)
Record Row : Type := mkRow {
  date : Z;
  max_temp_c : Z;
  min_temp_c : Z;
  max_temp_f : Z;
  min_temp_f : Z;
  avg_temp_c : Q;
  avg_temp_f : Q;
  uv_index : string;
  sun_hour : string;
  wind_speed_kmph : option Q;
  wind_direction : option string;
  wind_gust_kmph : option Q
}.

Definition dates (l : list Row) : list Z := date <$> l.

Definition date_le (a b : Row) : Prop := date a ≤ date b.
Definition date_lt (a b : Row) : Prop := date a < date b.

#[global] Instance date_le_dec a b : Decision (date_le a b).
Proof. unfold date_le. apply _. Defined.
#[global] Instance date_lt_dec a b : Decision (date_lt a b).
Proof. unfold date_lt. apply _. Defined.

(** ** The dataset store: update_digby_temperature.py, lines 174-182 *)

Module Store.

(** [df.drop_duplicates(subset=['date'], keep='last')]: a row stays when no
    later row of the frame carries its date; the order of the rows is kept. *)
Fixpoint drop_duplicates_last (l : list Row) : list Row :=
  match l with
  | [] => []
  | r :: tl =>
      if decide (date r ∈ dates tl) then drop_duplicates_last tl
      else r :: drop_duplicates_last tl
  end.

(** The last row of [l] dated [d], if any. *)
Definition last_with (d : Z) (l : list Row) : option Row :=
  last (filter (λ r, date r = d) l).

(** pandas documents [sort_values(by, kind='quicksort')], the default
    [kind], as returning the rows reordered so that the key ascends, and as
    not stable: the order in which it leaves rows of the same date is not
    specified, and depends on the numpy build and on the length of the
    frame.  The merge is therefore parameterised by the sort, and
    [sort_contract] is what is known of it. *)
Definition sort_contract (sort_values : list Row → list Row) : Prop :=
  ∀ l, sort_values l ≡ₚ l ∧ StronglySorted date_le (sort_values l).

Section Merge.
Variable sort_values : list Row → list Row.

(** [pd.concat([df_existing, df_new], ignore_index=True)] *)
Definition concat (df_existing df_new : list Row) : list Row :=
  df_existing ++ df_new.

Definition merge (df_existing df_new : list Row) : list Row :=
  let df_combined := concat df_existing df_new in
  let df_combined := sort_values df_combined in
  drop_duplicates_last df_combined.
End Merge.

End Store.

(** Two sorts that meet the contract, on which the properties are
    evaluated.  [Stable] is an insertion sort that puts a row before the rows
    dated the same that follow it in the frame, what [kind='stable'] would
    do.  [Unstable] is the merge sort that deals the rows out to two halves
    in turn, which is not stable.  Neither is the routine numpy runs; on a
    frame without two rows of the same date every sort that meets the
    contract returns the same frame. *)
Module Stable.

Fixpoint insert (r : Row) (l : list Row) : list Row :=
  match l with
  | [] => [r]
  | y :: tl => if decide (date r ≤ date y) then r :: y :: tl
               else y :: insert r tl
  end.

Definition sort_values (df : list Row) : list Row := foldr insert [] df.

End Stable.

Module Unstable.

(** the rows at the even and at the odd positions *)
Fixpoint deal (l : list Row) : list Row * list Row :=
  match l with
  | x :: y :: tl => let '(a, b) := deal tl in (x :: a, y :: b)
  | _ => (l, [])
  end.

(** a frame of two rows or more is dealt out, the halves are sorted and
    merged, the row of the first half going first when the dates are the
    same; [n] bounds the depth of the recursion *)
Fixpoint sort_depth (n : nat) (l : list Row) : list Row :=
  match n with
  | O => l
  | S n =>
      match l with
      | _ :: _ :: _ =>
          let '(a, b) := deal l in
          list_merge date_le (sort_depth n a) (sort_depth n b)
      | _ => l
      end
  end.

Definition sort_values (df : list Row) : list Row :=
  sort_depth (length df) df.

End Unstable.

(** ** Python helpers shared by the scripts *)

Module Py.

(** [list(dict.fromkeys(l))] and [Series.unique()]: the distinct values in
    the order of their first appearance. *)
Fixpoint unique_from {A} `{EqDecision A} (seen l : list A) : list A :=
  match l with
  | [] => []
  | x :: tl =>
      if decide (x ∈ seen) then unique_from seen tl
      else x :: unique_from (x :: seen) tl
  end.

Definition unique {A} `{EqDecision A} (l : list A) : list A :=
  unique_from [] l.

(** [sorted(l)] on integers *)
Definition sorted (l : list Z) : list Z := merge_sort Z.le l.

End Py.

(** ** Arithmetic on rationals, without rounding

    What the specification calls the mean of some samples, and rounding to
    one decimal as it is done on paper. *)

Module Exact.

Definition sum (l : list Q) : Q := foldr Qplus (0 # 1)%Q l.

(** the sum of the values divided by their number *)
Definition mean (l : list Q) : Q :=
  (sum l / inject_Z (Z.of_nat (length l)))%Q.

(** the nearest integer, a tie going to the even one *)
Definition round_half_even (q : Q) : Z :=
  let n := Qnum q in
  let d := Z.pos (Qden q) in
  let fl := n / d in
  let twice := 2 * (n mod d) in
  if twice <? d then fl
  else if d <? twice then fl + 1
  else if Z.even fl then fl else fl + 1.

(** the nearest multiple of one tenth, a tie going to the even one *)
Definition round1 (q : Q) : Q :=
  (round_half_even (q * (10 # 1)) # 10)%Q.

End Exact.

(** ** Floating point arithmetic *)

Module Float.

(** The operations of the scripts whose result is rounded to a binary64
    number.  How Python and pandas accumulate a sum differs between their
    versions (left to right, compensated, pairwise), so the operations are
    left open, and three properties are kept that hold of all of them on
    finite values:
    - a whole number of magnitude up to 2^53 is a binary64 number; the sum
      of a list that holds only this number is the number, and so is its
      quotient by 1;
    - [round(x, 1)] returns a whole number of that magnitude as it is;
    - the difference of two binary64 numbers is rounded to a number of the
      sign of the exact difference, and to 0 only when they are equal. *)
Class Arithmetic : Type := {
  (** [sum(l) / len(l)] on a list of floats that is not empty
      (update_digby_temperature.py line 145) *)
  py_mean : list Q → Q;
  (** [round(x, 1)] (line 157) *)
  py_round1 : Q → Q;
  (** pandas' [mean()] of the cells of a float column that are not NaN,
      when there is one *)
  mean : list Q → Q;
  (** [a - b] on two float cells *)
  sub : Q → Q → Q;
  py_mean_whole x k :
    (x == inject_Z k)%Q → Z.abs k ≤ 2 ^ 53 → (py_mean [x] == inject_Z k)%Q;
  py_round1_whole x k :
    (x == inject_Z k)%Q → Z.abs k ≤ 2 ^ 53 → (py_round1 x == inject_Z k)%Q;
  sub_sign a b :
    ((0 < sub a b)%Q ↔ (b < a)%Q) ∧ ((sub a b < 0)%Q ↔ (a < b)%Q)
}.

(** The arithmetic without rounding has these properties.  The sample
    frames are evaluated with it: their cells, and the means and differences
    taken of them, are whole numbers and halves, which binary64 arithmetic
    gives exactly. *)
Definition exact : Arithmetic.
Proof.
  refine {| py_mean := Exact.mean;
            py_round1 := Exact.round1;
            mean := Exact.mean;
            sub := Qminus |}.
  - intros x k Hx _. unfold Exact.mean, Exact.sum. simpl.
    rewrite Hx. unfold Qeq, Qdiv, Qmult, Qplus, Qinv, inject_Z. simpl. lia.
  - intros x k Hx _. unfold Exact.round1, Exact.round_half_even.
    destruct x as [n d]. unfold Qeq, inject_Z in Hx. simpl in Hx.
    unfold Qeq, Qmult, inject_Z. simpl. rewrite Pos.mul_1_r.
    replace (n * 10) with (k * 10 * Z.pos d) by lia.
    rewrite Z.mod_mul, Z.div_mul by lia.
    destruct (Z.pos d) eqn:E; try lia. simpl. lia.
  - intros a b. split; split; intros H; lra.
Defined.

End Float.

(** ** The incremental update: update_digby_temperature.py *)

Module Update.

(** One element of a day's ['hourly'] list of the API answer.  A field is
    [None] when the key is missing or its value is falsy (empty), and
    otherwise what [float(...)] makes of the string. *)
Record Hourly : Type := mkHourly {
  windspeedKmph : option Q;
  winddir16Point : option string;
  WindGustKmph : option Q
}.

(** One element of ['weather'] in the API answer; [day_date] is
    [datetime.strptime(day['date'], '%Y-%m-%d').date()], the temperatures
    are [int(day[...])], [hourly = None] is a missing ['hourly'] key. *)
Record Day : Type := mkDay {
  day_date : Z;
  maxtempC : Z;
  mintempC : Z;
  maxtempF : Z;
  mintempF : Z;
  uvIndex : option string;
  sunHour : option string;
  hourly : option (list Hourly)
}.

Definition empty_hourly : Hourly := mkHourly None None None.

(** lines 141-160: the record built for one day *)
Definition make_record `{!Float.Arithmetic} (day : Day) : Row :=
  let hourly := default [empty_hourly] (hourly day) in
  let wind_speeds := omap windspeedKmph hourly in
  let avg_wind_speed :=
    match wind_speeds with
    | [] => (0 # 1)%Q
    | _ => Float.py_mean wind_speeds
    end in
  {| date := day_date day;
     max_temp_c := maxtempC day;
     min_temp_c := mintempC day;
     max_temp_f := maxtempF day;
     min_temp_f := mintempF day;
     avg_temp_c := ((maxtempC day + mintempC day) # 2)%Q;
     avg_temp_f := ((maxtempF day + mintempF day) # 2)%Q;
     uv_index := default EmptyString (uvIndex day);
     sun_hour := default EmptyString (sunHour day);
     wind_speed_kmph := Some (Float.py_round1 avg_wind_speed);
     wind_direction :=
       Some (match hourly with
             | h :: _ => default EmptyString (winddir16Point h)
             | [] => EmptyString
             end);
     wind_gust_kmph :=
       Some (match hourly with
             | h :: _ => default (0 # 1)%Q (WindGustKmph h)
             | [] => (0 # 1)%Q
             end) |}.

(** lines 66-74: the [while current.date() <= today] loop over month
    starts; every pass moves [current] to a later day, so one unit of fuel
    per day of the window is never used up *)
Fixpoint months_loop (fuel : nat) (current today : Z) : list (Z * Z) :=
  match fuel with
  | O => []
  | S f =>
      if current <=? today then
        let year := Calendar.year_of current in
        let month := Calendar.month_of current in
        (year, month)
        :: months_loop f
             (if month =? 12 then Calendar.ymd2ord (year + 1) 1 1
              else Calendar.ymd2ord year (month + 1) 1)
             today
      else []
  end.

Definition months_to_fetch (start_date today : Z) : list (Z * Z) :=
  Py.unique (months_loop (Z.to_nat (today - start_date + 1)) start_date today).

(** [df_existing['date'].max()] *)
Definition max_date (df : list Row) : option Z :=
  match dates df with
  | [] => None
  | d :: ds => Some (foldr Z.max d ds)
  end.

Section Run.
Context `{!Float.Arithmetic}.
Variable sort_values : list Row → list Row.
(** [datetime.now().date()] *)
Variable today : Z.
(** [fetch_month_data(year, month, API_KEY)]: [None] on an API or network
    error, otherwise the month's ['weather'] list *)
Variable fetch_month_data : Z → Z → option (list Day).

(** lines 129-161 *)
Definition new_records (start_date : Z) (months : list (Z * Z)) : list Row :=
  flat_map
    (λ ym, match fetch_month_data ym.1 ym.2 with
           | Some month_data =>
               make_record
                 <$> filter (λ day, start_date ≤ day_date day
                                    ∧ day_date day ≤ today) month_data
           | None => []
           end)
    months.

Inductive outcome : Type :=
  | CsvNotFound                         (* exit(1), line 42 *)
  | NoLastDate                          (* empty frame: NaT, the run raises *)
  | UpToDate                            (* exit(0), line 63 *)
  | NoNewData                           (* exit(0), line 171 *)
  | Updated (df_new df_combined : list Row).

(** the whole run, from the persisted frame (if the file exists) to the
    frame handed to [to_csv] *)
Definition update (csv : option (list Row)) : outcome :=
  match csv with
  | None => CsvNotFound
  | Some df_existing =>
      match max_date df_existing with
      | None => NoLastDate
      | Some last_date =>
          let start_date := last_date + 1 in
          if today <? start_date then UpToDate
          else
            let df_new :=
              new_records start_date (months_to_fetch start_date today) in
            match df_new with
            | [] => NoNewData
            | _ => Updated df_new (Store.merge sort_values df_existing df_new)
            end
      end
  end.
End Run.

End Update.

(** ** Saving: [df_combined.to_csv(CSV_FILE, index=False)] (line 196) *)

Module Persist.

Inductive csv_line : Type :=
  | Header (columns : list string)
  | Line (r : Row).

(** what a complete file of the frame holds *)
Definition csv_lines (columns : list string) (df : list Row) : list csv_line :=
  Header columns :: (Line <$> df).

(** The file system: the lines of every existing file, by path. *)
Abbreviation disk := (gmap string (list csv_line)).

(** [open(path, 'w')]: the file is created, or truncated when it exists *)
Definition open_w (path : string) (fs : disk) : disk := <[path := []]> fs.

(** [handle.write(line)] *)
Definition write (path : string) (ln : csv_line) (fs : disk) : disk :=
  alter (λ content, content ++ [ln]) path fs.

(** What may go wrong while saving: opening the target raises (permissions),
    or the write raises or the process dies once [k] lines are out. *)
Inductive fault : Type :=
  | NoFault
  | OpenFails
  | WriteFails (k : nat).

Fixpoint write_lines (path : string) (lines : list csv_line)
    (budget : option nat) (fs : disk) : disk * bool :=
  match lines with
  | [] => (fs, true)
  | ln :: rest =>
      match budget with
      | Some O => (fs, false)
      | Some (S k) => write_lines path rest (Some k) (write path ln fs)
      | None => write_lines path rest None (write path ln fs)
      end
  end.

(** pandas opens the target path itself and writes the header and the rows
    through that handle; the result is the file system afterwards and
    whether the call returned normally. *)
Definition to_csv (path : string) (columns : list string) (df : list Row)
    (f : fault) (fs : disk) : disk * bool :=
  match f with
  | OpenFails => (fs, false)
  | NoFault => write_lines path (csv_lines columns df) None (open_w path fs)
  | WriteFails k =>
      write_lines path (csv_lines columns df) (Some k) (open_w path fs)
  end.

Definition CSV_FILE : string := "digby_temperature_2020-2025.csv".

(** the save of the update script *)
Definition save (columns : list string) (df_combined : list Row)
    (f : fault) (fs : disk) : disk * bool :=
  to_csv CSV_FILE columns df_combined f fs.

End Persist.

(** ** The analyses: analyze_cold_days.py, analyze_extreme_cold_days.py,
       analyze_january_patterns.py *)

Module Analyze.

(** [df['year'] = df['date'].dt.year], [df['month'] = df['date'].dt.month] *)
Definition year (r : Row) : Z := Calendar.year_of (date r).
Definition month (r : Row) : Z := Calendar.month_of (date r).

(** [frame.groupby(key).size()]: a Series from each key that occurs to the
    number of its rows *)
Definition groupby_size (keys : list Z) : gmap Z nat :=
  foldr (λ k s, <[k := S (default 0%nat (s !! k))]> s) ∅ keys.

(** [series.get(k, dflt)] *)
Definition series_get (s : gmap Z nat) (k : Z) (dflt : nat) : nat :=
  default dflt (s !! k).

(** What a cold-day analysis prints per year (the [for year in all_years]
    loop), the total it prints, and the Series it returns. *)
Record cold_report : Type := mkColdReport {
  printed : list (Z * nat);
  total : nat;
  returned : gmap Z nat
}.

Definition analyze_cold_days (df : list Row) : cold_report :=
  let cold_days := filter (λ r, min_temp_c r < -10) df in
  let cold_days_by_year := groupby_size (year <$> cold_days) in
  let all_years := Py.sorted (Py.unique (year <$> df)) in
  let printed := (λ y, (y, series_get cold_days_by_year y 0)) <$> all_years in
  mkColdReport printed (sum_list (snd <$> printed)) cold_days_by_year.

Definition analyze_extreme_cold_days (df : list Row) : cold_report :=
  let extreme_cold_days := filter (λ r, max_temp_c r < -10) df in
  let extreme_cold_by_year := groupby_size (year <$> extreme_cold_days) in
  let all_years := Py.sorted (Py.unique (year <$> df)) in
  let printed :=
    (λ y, (y, series_get extreme_cold_by_year y 0)) <$> all_years in
  mkColdReport printed (sum_list (snd <$> printed)) extreme_cold_by_year.

(** The variables of the streak loop (lines 58-61). *)
Record streak_state : Type := mkStreak {
  current_streak : nat;
  max_streak : nat;
  streak_start : option Z;
  streaks : list (option Z * nat)
}.

Definition streak_init : streak_state := mkStreak 0 0 None [].

Section Streaks.
(** the condition of line 64; the script's is [cold_max] below *)
Variable predicate : Row → bool.

(** one iteration of [for _, row in year_data.iterrows()] (lines 63-72) *)
Definition streak_step (st : streak_state) (row : Row) : streak_state :=
  if predicate row then
    let start :=
      if (current_streak st =? 0)%nat then Some (date row)
      else streak_start st in
    let current := S (current_streak st) in
    mkStreak current (Nat.max (max_streak st) current) start (streaks st)
  else
    let streaks :=
      if (0 <? current_streak st)%nat
      then streaks st ++ [(streak_start st, current_streak st)]
      else streaks st in
    mkStreak 0 (max_streak st) (streak_start st) streaks.

(** lines 58-76: the loop, then the flush of a streak still open *)
Definition cold_streaks (year_data : list Row) : list (option Z * nat) * nat :=
  let st := fold_left streak_step year_data streak_init in
  let streaks :=
    if (0 <? current_streak st)%nat
    then streaks st ++ [(streak_start st, current_streak st)]
    else streaks st in
  (streaks, max_streak st).
End Streaks.

Definition cold_max (row : Row) : bool := bool_decide (max_temp_c row < -5).

(** lines 53-84, per January: its streaks and its longest streak *)
Definition analyze_january_patterns (sort_values : list Row → list Row)
    (df : list Row) : list (Z * (list (option Z * nat) * nat)) :=
  let jan_df := filter (λ r, month r = 1) df in
  (λ y, let year_data := sort_values (filter (λ r, year r = y) jan_df) in
        (y, cold_streaks cold_max year_data))
  <$> Py.sorted (Py.unique (year <$> jan_df)).

End Analyze.

(** ** The wind scripts: visualize_wind.py, plot_interactive_wind.py *)

Module Wind.

(** What [pd.read_csv] returns: the header's column names and the rows. *)
Record DataFrame : Type := mkDataFrame {
  columns : list string;
  rows : list Row
}.

(** the keys of [direction_map] *)
Definition direction_keys : list string :=
  ["N"; "NNE"; "NE"; "ENE"; "E"; "ESE"; "SE"; "SSE";
   "S"; "SSW"; "SW"; "WSW"; "W"; "WNW"; "NW"; "NNW"].

(** [q > 0] on floats *)
Definition Qpositive (q : Q) : bool := negb (Qle_bool q (0 # 1)).

(** [df['wind_speed_kmph'] > 0], false on NaN *)
Definition has_wind (r : Row) : bool :=
  match wind_speed_kmph r with
  | Some q => Qpositive q
  | None => false
  end.

Definition valid_direction (r : Row) : bool :=
  match wind_direction r with
  | Some d => bool_decide (d ∈ direction_keys)
  | None => false
  end.

(** [series.value_counts()] as the map from each label to its number of
    rows; the order in which pandas lists the labels is not represented *)
Definition value_counts (labels : list string) : gmap string nat :=
  foldr (λ k s, <[k := S (default 0%nat (s !! k))]> s) ∅ labels.

(** [series.max()], [series.min()], [series.mean()] over the cells that are
    not NaN; NaN ([None]) when there is none *)
Definition series_max (cells : list Q) : option Q :=
  match cells with
  | [] => None
  | c :: cs => Some (foldr Qmax c cs)
  end.

Definition series_min (cells : list Q) : option Q :=
  match cells with
  | [] => None
  | c :: cs => Some (foldr Qmin c cs)
  end.

Definition series_mean `{!Float.Arithmetic} (cells : list Q) : option Q :=
  match cells with
  | [] => None
  | _ => Some (Float.mean cells)
  end.

(** what visualize_wind.py prints under "Wind Statistics" and plots (the
    30-day rolling average and the monthly averages of the first figure are
    further views of [df_wind] and are left out); the maximum gust is the
    one statistic taken over the whole frame, and is printed only when it is
    positive *)
Record wind_statistics : Type := mkWindStatistics {
  df_wind : list Row;
  df_direction : list Row;
  average_wind_speed : option Q;
  maximum_wind_speed : option Q;
  minimum_wind_speed : option Q;
  maximum_wind_gust : option Q;
  direction_counts : gmap string nat
}.

Inductive run (A : Type) : Type :=
  | Exit (code : Z) (message : string)
  | Raise (error : string)
  | Done (result : A).
Arguments Exit {A} code message.
Arguments Raise {A} error.
Arguments Done {A} result.

Definition visualize_wind `{!Float.Arithmetic} (input_exists : bool)
    (df : DataFrame) : run wind_statistics :=
  if negb input_exists then
    Exit 1 "Error: digby_temperature_2020-2025.csv not found!"
  else if bool_decide ("wind_speed_kmph" ∈ columns df) then
    let df_wind := filter (λ r, has_wind r) (rows df) in
    match df_wind with
    | [] => Exit 1 "No wind data available to visualize."
    | _ =>
        let df_direction := filter (λ r, valid_direction r) df_wind in
        let speeds := omap wind_speed_kmph df_wind in
        Done {| df_wind := df_wind;
                df_direction := df_direction;
                average_wind_speed := series_mean speeds;
                maximum_wind_speed := series_max speeds;
                minimum_wind_speed := series_min speeds;
                maximum_wind_gust :=
                  if bool_decide ("wind_gust_kmph" ∈ columns df) then
                    match series_max (omap wind_gust_kmph (rows df)) with
                    | Some g => if Qpositive g then Some g else None
                    | None => None
                    end
                  else None;
                direction_counts :=
                  value_counts (omap wind_direction df_direction) |}
    end
  else Exit 1 "Error: No wind data in CSV file!".

(** [frame.groupby(key)[column].mean()]: per key that occurs, the mean of
    the cells that are not NaN ([None] when the group has none) *)
Definition groupby_mean `{!Float.Arithmetic} {K} `{Countable K}
    (key : Row → K) (column : Row → option Q) (df : list Row)
  : gmap K (option Q) :=
  list_to_map
    ((λ k, (k, series_mean (omap column (filter (λ r, key r = k) df))))
     <$> Py.unique (key <$> df)).

(** [frame.groupby(key)[column].max()] *)
Definition groupby_max {K} `{Countable K} (key : Row → K)
    (column : Row → option Q) (df : list Row) : gmap K (option Q) :=
  list_to_map
    ((λ k, (k, series_max (omap column (filter (λ r, key r = k) df))))
     <$> Py.unique (key <$> df)).

(** what plot_interactive_wind.py charts and prints *)
Record wind_charts : Type := mkWindCharts {
  monthly_avg : gmap (Z * Z) (option Q);
  yearly_max_gust : gmap Z (option Q)
}.

Definition plot_interactive_wind `{!Float.Arithmetic} (input_exists : bool)
    (df : DataFrame) : run wind_charts :=
  if negb input_exists then
    Exit 1 "Error: digby_temperature_2020-2025.csv not found!"
  else if bool_decide ("wind_speed_kmph" ∈ columns df) then
    let monthly_avg :=
      groupby_mean (λ r, (Analyze.year r, Analyze.month r))
        wind_speed_kmph (rows df) in
    if bool_decide ("wind_gust_kmph" ∈ columns df) then
      Done {| monthly_avg := monthly_avg;
              yearly_max_gust :=
                groupby_max Analyze.year wind_gust_kmph (rows df) |}
    else Raise "KeyError: 'wind_gust_kmph'"
  else Exit 1 "Error: No wind data in CSV file!".

End Wind.

(** ** Sample frames *)

Module Samples.

(** a row of the given date and maximum, the other cells filled in *)
Definition row (d max_c : Z) : Row :=
  mkRow d max_c (max_c - 8) 32 18 ((2 * max_c - 8) # 2) (25 # 1)
    "3" "8.5" None None None.

Definition jan1 : Z := Calendar.ymd2ord 2024 1 1.

(** sixteen consecutive days from 2024-01-01, maximum 0 *)
Definition D16 : list Row := (λ i, row (jan1 + i) 0) <$> seqZ 0 16.

(** a batch that fetches 2024-01-10 again (maximum 1 now) and brings the
    two days after the sixteen (maxima 2 and 3) *)
Definition B3 : list Row :=
  [row (jan1 + 9) 1; row (jan1 + 16) 2; row (jan1 + 17) 3].



(** a batch of two days well after the sixteen *)
Definition fetched_later : list Row := [row (jan1 + 20) 6; row (jan1 + 21) 7].

End Samples.

(** ** The statements about the merge, as the specification words them *)

Module StoreClaims.
Import Store.



(** the batch brings one row per date and no date the frame already has *)
Definition fresh_batch (D B : list Row) : Prop :=
  NoDup (dates B) ∧ ∀ d, d ∈ dates B → d ∉ dates D.

End StoreClaims.

(** ** The statement about saving, as the specification words it *)

Module PersistClaims.
Import Persist.

(** "for every failure during writing the previously persisted dataset on
    disk remains intact and unchanged" *)
Definition save_atomic : Prop :=
  ∀ columns df_combined f fs,
    (save columns df_combined f fs).2 = false →
    (save columns df_combined f fs).1 !! CSV_FILE = fs !! CSV_FILE.

(** the columns of the frames the update script writes *)
Definition COLUMNS : list string :=
  ["date"; "max_temp_c"; "min_temp_c"; "max_temp_f"; "min_temp_f";
   "avg_temp_c"; "avg_temp_f"; "uv_index"; "sun_hour"; "wind_speed_kmph";
   "wind_direction"; "wind_gust_kmph"].

End PersistClaims.

(** ** The statement about the per-year counts, as the specification words it *)

Module AnalyzeClaims.

(** "exactly one entry for every year that appears in the dataset, with
    years having zero qualifying days reported with an explicit count of 0":
    the printed years ascend without repetition, are the years of the
    frame, each with the number of its qualifying rows; a frame whose years
    are [lo .. hi] gets [hi - lo + 1] entries. *)
Definition dense_report (qualifies : Row → Prop)
    `{!∀ r, Decision (qualifies r)} (df : list Row)
    (printed : list (Z * nat)) : Prop :=
  StronglySorted Z.lt printed.*1
  ∧ (∀ y, y ∈ printed.*1 ↔ y ∈ Analyze.year <$> df)
  ∧ (∀ y n, (y, n) ∈ printed →
       n = length (filter (λ r, Analyze.year r = y ∧ qualifies r) df))
  ∧ (∀ lo hi, (∀ y, y ∈ Analyze.year <$> df ↔ lo ≤ y ≤ hi) →
       length printed = Z.to_nat (hi - lo + 1)).

(** seven days over 2020..2025, not in date order; 2021, 2023 and 2024 have
    no day with a minimum below -10 *)
Definition six_years : list Row :=
  [Samples.row (Calendar.ymd2ord 2022 2 3) (-12);
   Samples.row (Calendar.ymd2ord 2020 1 15) (-5);
   Samples.row (Calendar.ymd2ord 2025 1 1) (-3);
   Samples.row (Calendar.ymd2ord 2021 7 1) 20;
   Samples.row (Calendar.ymd2ord 2022 2 2) (-4);
   Samples.row (Calendar.ymd2ord 2024 12 25) 0;
   Samples.row (Calendar.ymd2ord 2023 3 3) 5].

End AnalyzeClaims.

(** ** The statements about streaks *)

Module StreakClaims.

(** "each reported streak is a run of consecutive calendar dates (no gaps
    between successive dates) all satisfying the predicate": the streak
    [(start, n)] stands for the [n] dates from [start] on, each the date of
    a row of the period that satisfies the predicate. *)
Definition calendar_run (predicate : Row → bool) (year_data : list Row)
    (s : option Z * nat) : Prop :=
  ∃ start, s.1 = Some start
    ∧ ∀ k, 0 ≤ k < Z.of_nat s.2 →
        ∃ r, r ∈ year_data ∧ date r = start + k ∧ predicate r = true.

Definition streaks_are_calendar_runs (predicate : Row → bool) : Prop :=
  ∀ year_data, StronglySorted date_lt year_data →
    ∀ s, s ∈ (Analyze.cold_streaks predicate year_data).1 →
      calendar_run predicate year_data s.

(** The streak [(start, n)] is a maximal run of consecutive rows: [n] rows
    in a row that all satisfy the predicate, starting at the row dated
    [start], with a row that fails the predicate (or nothing) on either
    side. *)
Definition row_run (predicate : Row → bool) (year_data : list Row)
    (s : option Z * nat) : Prop :=
  ∃ before run after,
    year_data = before ++ run ++ after
    ∧ run ≠ []
    ∧ Forall (λ r, predicate r = true) run
    ∧ s = (date <$> head run, length run)
    ∧ (∀ r, last before = Some r → predicate r = false)
    ∧ (∀ r, head after = Some r → predicate r = false).

(** What the loop of lines 63-76 adds to [streaks] from a state with [cur]
    rows of an open run started at [start], the final flush included: the
    loop read as a recursion over the rows still to come. *)
Fixpoint reported (predicate : Row → bool) (cur : nat) (start : option Z)
    (rows : list Row) : list (option Z * nat) :=
  match rows with
  | [] => if (0 <? cur)%nat then [(start, cur)] else []
  | r :: tl =>
      if predicate r then
        reported predicate (S cur)
          (if (cur =? 0)%nat then Some (date r) else start) tl
      else
        (if (0 <? cur)%nat then [(start, cur)] else [])
        ++ reported predicate 0 start tl
  end.

(** every row is dated the day after the row before it *)
Definition consecutive_days (year_data : list Row) : Prop :=
  ∀ i r q, year_data !! i = Some r → year_data !! S i = Some q →
    date q = date r + 1.

(** six days from [d0] on with the maxima of the specification's case *)
Definition six_days (d0 : Z) : list Row :=
  [Samples.row d0 (-6); Samples.row (d0 + 1) (-7); Samples.row (d0 + 2) (-8);
   Samples.row (d0 + 3) 3; Samples.row (d0 + 4) (-6);
   Samples.row (d0 + 5) (-6)].

(** two cold days of January 2024 with the day between them missing *)
Definition gap_days : list Row :=
  [Samples.row Samples.jan1 (-6); Samples.row (Samples.jan1 + 2) (-7)].

End StreakClaims.

(** ** The statements about the update run *)

Module UpdateClaims.
Import Update.

Section Fields.
Context `{!Float.Arithmetic}.





End Fields.


(** a day with three readings: speeds 9, 10, 11 and gusts 10, 30, 20 *)
Definition three_readings : Day :=
  mkDay (Samples.jan1 + 16) 2 (-6) 36 21 (Some "1") (Some "7.0")
    (Some [mkHourly (Some (9 # 1)%Q) (Some "N") (Some (10 # 1)%Q);
           mkHourly (Some (10 # 1)%Q) (Some "NE") (Some (30 # 1)%Q);
           mkHourly (Some (11 # 1)%Q) (Some "E") (Some (20 # 1)%Q)]).

(** a day as the API answers with [tp=24]: one reading *)
Definition one_reading : Day :=
  mkDay (Samples.jan1 + 17) 3 (-5) 37 23 (Some "1") (Some "6.5")
    (Some [mkHourly (Some (14 # 1)%Q) (Some "WSW") (Some (27 # 1)%Q)]).

(** an API that answers January 2024 with the two days above, and fails
    for every other month *)
Definition january_api (year month : Z) : option (list Day) :=
  if (year =? 2024) && (month =? 1) then Some [three_readings; one_reading]
  else None.

End UpdateClaims.

(** ** Sample frames for the wind scripts *)

Module WindSamples.

(** the row is recorded with a wind speed of 0 *)
Definition recorded_calm (r : Row) : bool :=
  match wind_speed_kmph r with
  | Some q => Qeq_bool q (0 # 1)
  | None => false
  end.

(** a fetched day without readings: its record has wind speed 0 *)
Definition no_readings : Update.Day :=
  Update.mkDay (Samples.jan1 + 18) 1 (-4) 34 25 None None (Some []).

(** a file written before the wind columns existed *)
Definition old_frame : Wind.DataFrame :=
  Wind.mkDataFrame
    ["date"; "max_temp_c"; "min_temp_c"; "max_temp_f"; "min_temp_f";
     "avg_temp_c"; "avg_temp_f"; "uv_index"; "sun_hour"]
    Samples.D16.

(** the same file after an update: sixteen rows with empty wind cells, two
    days with wind and one day recorded with wind speed 0 *)
Definition updated_frame `{!Float.Arithmetic} : Wind.DataFrame :=
  Wind.mkDataFrame PersistClaims.COLUMNS
    (Samples.D16
     ++ (Update.make_record
         <$> [UpdateClaims.three_readings; UpdateClaims.one_reading;
              no_readings])).

End WindSamples.

(** ** Further sample batches *)

Module MoreSamples.

(** a batch of two new days *)
Definition B_new : list Row :=
  [Samples.row (Samples.jan1 + 17) 4; Samples.row (Samples.jan1 + 16) 5].

(** the sixteen days and the two days the January answer brings: a stored
    frame whose last date is 2024-01-18 *)
Definition stored18 `{!Float.Arithmetic} : list Row :=
  Samples.D16
  ++ (Update.make_record
      <$> [UpdateClaims.three_readings; UpdateClaims.one_reading]).

End MoreSamples.

(** ** The "Additional statistics" of the two cold-day analyses *)

Module ColdDetails.
Import Analyze.

(** The frame as [pd.read_csv] returns it: every row under its label of the
    RangeIndex; a boolean selection keeps the labels. *)
Definition labelled (df : list Row) : list (nat * Row) :=
  imap (λ i r, (i, r)) df.

(** [series.min()] of an integer column *)
Definition int_min (cells : list Z) : option Z :=
  match cells with
  | [] => None
  | c :: cs => Some (foldr Z.min c cs)
  end.

Definition column_le (column : Row → Z) (a b : Row) : Prop :=
  column a ≤ column b.

#[global] Instance column_le_dec column a b : Decision (column_le column a b).
Proof. unfold column_le. apply _. Defined.

(** the order a sort on one integer column has to produce; which of two
    rows with the same cell comes first is left open *)
Definition sort_contract_by (column : Row → Z)
    (sort_values : list Row → list Row) : Prop :=
  ∀ l, sort_values l ≡ₚ l
       ∧ StronglySorted (column_le column) (sort_values l).

Section Column.
(** [min_temp_c] in analyze_cold_days.py, [max_temp_c] in
    analyze_extreme_cold_days.py *)
Variable column : Row → Z.

(** [frame[column].idxmin()]: the label of the first row that holds the
    minimum *)
Definition idxmin (frame : list (nat * Row)) : option nat :=
  int_min ((column ∘ snd) <$> frame)
  ≫= λ m, fst <$> head (filter (λ lr, column lr.2 = m) frame).

(** [frame.loc[label, 'date']], for a label that the frame has once *)
Definition loc_date (label : nat) (frame : list (nat * Row)) : option Z :=
  (date ∘ snd) <$> head (filter (λ lr, lr.1 = label) frame).

(** what the block prints: the coldest cell and its date, and the lines of
    the breakdown by month *)
Record details : Type := mkDetails {
  coldest : option Z;
  coldest_date : option Z;
  by_month : list (Z * nat)
}.

(** analyze_cold_days.py lines 49-66, analyze_extreme_cold_days.py lines
    51-68; [None] when there is no cold day.  In [cold_days_by_month[month]]
    the month is one of the index, so the lookup finds it. *)
Definition additional_statistics (df : list Row) : option details :=
  let cold_days := filter (λ lr, column lr.2 < -10) (labelled df) in
  if bool_decide (0 < length cold_days)%nat then
    let cold_days_by_month := groupby_size ((month ∘ snd) <$> cold_days) in
    Some {| coldest := int_min ((column ∘ snd) <$> cold_days);
            coldest_date :=
              idxmin cold_days ≫= λ label, loc_date label cold_days;
            by_month :=
              (λ m, (m, series_get cold_days_by_month m 0))
              <$> Py.sorted (map_to_list cold_days_by_month).*1 |}
  else None.

End Column.

(** analyze_extreme_cold_days.py lines 73-75: the rows listed as the most
    extreme, [extreme_cold_days.sort_values('max_temp_c').head(10)] *)
Definition most_extreme (sort_values : list Row → list Row) (df : list Row)
  : list Row :=
  let extreme_cold_days := filter (λ r, max_temp_c r < -10) df in
  take 10 (sort_values extreme_cold_days).

(** what the block prints for [AnalyzeClaims.six_years]: the coldest
    minimum is the -20 of 2022-02-03, and January and February have two
    cold days each *)
Definition six_years_details : details :=
  mkDetails (Some (-20)) (Some (Calendar.ymd2ord 2022 2 3))
    [(1, 2%nat); (2, 2%nat)].

(** twelve extreme days of January 2024, maxima -11 down to -22, in file
    order from the mildest to the coldest *)
Definition twelve_extreme : list Row :=
  (λ i, Samples.row (Samples.jan1 + i) (-11 - i)) <$> seqZ 0 12.

End ColdDetails.

(** ** The months loop, day by day *)

Module Months.
Import Calendar.

(** [(current.year, current.month)] *)
Definition year_month (d : Z) : Z * Z := (year_of d, month_of d).

(** months counted from year 0 *)
Definition month_index (ym : Z * Z) : Z := ym.1 * 12 + ym.2.

(** lines 71-74: the day [current] is moved to, the first of the month
    after its month *)
Definition next_month (current : Z) : Z :=
  if month_of current =? 12 then ymd2ord (year_of current + 1) 1 1
  else ymd2ord (year_of current) (month_of current + 1) 1.

(** One day of the calendar, as the loop meets it: the move leads to a later
    day, and the day after [d] is either in the same month and before that
    day, or is that day and opens the next month. *)
Definition day_step (d : Z) : bool :=
  (d <? next_month d)
  && (((d + 1 <? next_month d)
       && bool_decide (year_month (d + 1) = year_month d))
      || ((d + 1 =? next_month d)
          && (month_index (year_month (d + 1))
              =? month_index (year_month d) + 1))).

(** the days on which the calendar functions are evaluated in the proofs:
    2020-01-01 to 2039-12-31 *)
Definition FIRST_DAY : Z := ymd2ord 2020 1 1.
Definition LAST_DAY : Z := ymd2ord 2039 12 31.

(** a day to stand for today in the samples: 2024-03-05 *)
Definition march5 : Z := ymd2ord 2024 3 5.

End Months.

(** ** March against November: compare_march_november.py *)

Module Compare.

Inductive colder : Type := November | March | Same.

(** one line of the [comparison] frame; an empty cell (NaN) is [None] *)
Record comparison_row : Type := mkComparison {
  march : option Q;
  november : option Q;
  difference : option Q;
  colder_month : colder
}.

(** the lambda of line 46: both comparisons are false on NaN *)
Definition label (x : option Q) : colder :=
  match x with
  | Some x =>
      if Wind.Qpositive x then November
      else if Wind.Qpositive (- x) then March
      else Same
  | None => Same
  end.

(** [frame[frame['month'] == m].groupby('year')['avg_temp_c'].mean()] *)
Definition month_avg `{!Float.Arithmetic} (m : Z) (df : list Row)
  : gmap Z (option Q) :=
  Wind.groupby_mean Analyze.year (λ r, Some (avg_temp_c r))
    (filter (λ r, Analyze.month r = m) df).

(** lines 40-47: the two series side by side on the union of their years,
    their difference, and the label *)
Definition comparison `{!Float.Arithmetic} (df : list Row)
  : gmap Z comparison_row :=
  merge
    (λ mar nov,
       match mar, nov with
       | None, None => None
       | _, _ =>
           let mar := mjoin mar in
           let nov := mjoin nov in
           let diff :=
             match mar, nov with
             | Some a, Some b => Some (Float.sub a b)
             | _, _ => None
             end in
           Some (mkComparison mar nov diff (label diff))
       end)
    (month_avg 3 df) (month_avg 11 df).

(** March and November of 2024, and a March of 2025 without its November *)
Definition two_years : list Row :=
  [Samples.row (Calendar.ymd2ord 2024 3 10) 4;
   Samples.row (Calendar.ymd2ord 2024 11 10) 8;
   Samples.row (Calendar.ymd2ord 2025 3 10) 6].

(** the line of 2025 in the comparison of [two_years] *)
Definition march_only : comparison_row :=
  mkComparison (Some (4 # 2)%Q) None None Same.

End Compare.

(** * Properties *)

(** ** Dropping duplicate dates *)

Module StoreFacts.
Import Store.

Lemma drop_duplicates_subseteq l : drop_duplicates_last l ⊆ l.
Proof.
  induction l as [|r l IH]; simpl; [done|].
  case_decide; intros x Hx.
  - right. by apply IH.
  - apply elem_of_cons in Hx as [->|Hx]; [left|right; by apply IH].
Qed.

Lemma dates_drop_duplicates l d :
  d ∈ dates (drop_duplicates_last l) ↔ d ∈ dates l.
Proof.
  unfold dates. induction l as [|r l IH]; simpl; [done|].
  case_decide as Hr; rewrite ?fmap_cons, ?elem_of_cons, IH; [|done].
  split; [auto|]. intros [->|?]; auto.
Qed.

Lemma drop_duplicates_strict l :
  StronglySorted date_le l → StronglySorted date_lt (drop_duplicates_last l).
Proof.
  induction 1 as [|r l Hl IH Hr]; simpl; [constructor|].
  case_decide as Hd; [done|]. constructor; [done|].
  apply Forall_forall. intros q Hq.
  apply drop_duplicates_subseteq in Hq.
  rewrite Forall_forall in Hr. specialize (Hr q Hq).
  unfold date_le, date_lt in *.
  assert (date r ≠ date q); [|lia].
  intros E. apply Hd. unfold dates. rewrite E. by apply list_elem_of_fmap_2.
Qed.

Lemma strict_dates l :
  StronglySorted date_lt l → StronglySorted Z.lt (dates l).
Proof.
  unfold dates. induction 1 as [|r l Hl IH Hr]; simpl; constructor; [done|].
  by apply Forall_fmap.
Qed.

Lemma strict_NoDup (ds : list Z) : StronglySorted Z.lt ds → NoDup ds.
Proof.
  induction 1 as [|d ds Hl IH Hd]; constructor; [|done].
  intros Hin. rewrite Forall_forall in Hd. specialize (Hd d Hin). lia.
Qed.

Lemma last_with_drop_duplicates d l :
  last_with d (drop_duplicates_last l) = last_with d l.
Proof.
  unfold last_with. induction l as [|r l IH]; simpl; [done|].
  case_decide as Hd.
  - rewrite filter_cons. case_decide as E; [|done]. subst d.
    rewrite IH. unfold dates in Hd. apply list_elem_of_fmap in Hd as (q & Hq & Hin).
    assert (q ∈ filter (λ r0, date r0 = date r) l) as Hf
      by (apply list_elem_of_filter; auto).
    destruct (filter (λ r0, date r0 = date r) l) as [|x xs]; [by inv Hf|done].
  - rewrite !filter_cons. case_decide as E; [|done]. subst d.
    rewrite !last_cons, IH. done.
Qed.

(** the two sample sorts meet the contract *)
Lemma insert_Permutation r l : Stable.insert r l ≡ₚ r :: l.
Proof.
  induction l as [|y l IH]; simpl; [done|].
  case_decide; [done|]. rewrite IH. apply Permutation_swap.
Qed.

Lemma insert_sorted r l :
  StronglySorted date_le l → StronglySorted date_le (Stable.insert r l).
Proof.
  induction 1 as [|y l Hl IH Hy]; simpl; [repeat constructor|].
  case_decide as Hle.
  - constructor; [by constructor|]. constructor; [done|].
    eapply Forall_impl; [exact Hy|]. unfold date_le. intros; lia.
  - constructor; [done|]. rewrite insert_Permutation.
    constructor; [unfold date_le; lia|done].
Qed.

Lemma stable_sort_contract : sort_contract Stable.sort_values.
Proof.
  intros l. unfold Stable.sort_values. induction l as [|r l [IH1 IH2]]; simpl.
  - split; [done|constructor].
  - split; [by rewrite insert_Permutation, IH1|by apply insert_sorted].
Qed.

#[local] Instance date_le_trans : Transitive date_le.
Proof. intros x y z. unfold date_le. lia. Qed.

#[local] Instance date_le_total : Total date_le.
Proof. intros x y. unfold date_le. lia. Qed.

(** dealing loses no row, and the halves differ by one row at most *)
Lemma deal_spec l :
  (∀ a b, Unstable.deal l = (a, b) →
     a ++ b ≡ₚ l ∧ (length a + length b = length l)%nat
     ∧ (length b ≤ length a ≤ S (length b))%nat)
  ∧ (∀ x a b, Unstable.deal (x :: l) = (a, b) →
       a ++ b ≡ₚ x :: l ∧ (length a + length b = S (length l))%nat
       ∧ (length b ≤ length a ≤ S (length b))%nat).
Proof.
  induction l as [|y l [IH1 IH2]].
  - split.
    + intros a b [= <- <-]. split_and!; simpl; try done; lia.
    + intros x a b [= <- <-]. split_and!; simpl; try done; lia.
  - split; [apply IH2|].
    intros x a b. cbn [Unstable.deal].
    destruct (Unstable.deal l) as [a' b'] eqn:E. intros [= <- <-].
    destruct (IH1 a' b' eq_refl) as (Hp & Hlen & Hle).
    split; [|split].
    + cbn [app]. rewrite <- Hp.
      apply Permutation_skip. symmetry. apply Permutation_middle.
    + cbn [length]. rewrite <- Hlen. lia.
    + cbn [length]. lia.
Qed.

Lemma sort_depth_contract n : ∀ l, (length l ≤ n)%nat →
  Unstable.sort_depth n l ≡ₚ l ∧ Sorted date_le (Unstable.sort_depth n l).
Proof.
  induction n as [|n IH]; intros l Hl.
  - destruct l; [|simpl in Hl; lia]. split; [done|constructor].
  - destruct l as [|x [|y tl]].
    + split; [done|constructor].
    + split; [done|repeat constructor].
    + cbn [Unstable.sort_depth].
      destruct (Unstable.deal (x :: y :: tl)) as [a b] eqn:E.
      destruct (proj2 (deal_spec (y :: tl)) x a b E) as (Hp & Hlen & Hle).
      cbn [length] in Hl, Hlen.
      assert (2 ≤ length a + length b)%nat as H2 by lia.
      destruct (IH a) as [Hpa Hsa]; [lia|].
      destruct (IH b) as [Hpb Hsb]; [lia|].
      split.
      * by rewrite merge_Permutation, Hpa, Hpb.
      * apply Sorted_list_merge; [apply _|done|done].
Qed.

Lemma unstable_sort_contract : sort_contract Unstable.sort_values.
Proof.
  intros l. destruct (sort_depth_contract (length l) l) as [Hp Hs]; [done|].
  split; [done|]. apply Sorted_StronglySorted; [apply _|done].
Qed.

End StoreFacts.

(** ** The merge *)

Module MergeFacts.
Import Store StoreClaims StoreFacts.

Section Contract.
Variable sort_values : list Row → list Row.
Hypothesis contract : sort_contract sort_values.

Lemma merge_strict D B : StronglySorted date_lt (merge sort_values D B).
Proof. apply drop_duplicates_strict, contract. Qed.

Lemma merge_subseteq D B : merge sort_values D B ⊆ D ++ B.
Proof.
  intros x Hx. apply drop_duplicates_subseteq in Hx.
  by rewrite (proj1 (contract _)) in Hx.
Qed.

Lemma merge_dates D B d :
  d ∈ dates (merge sort_values D B) ↔ d ∈ dates (D ++ B).
Proof.
  unfold merge, concat, dates. rewrite dates_drop_duplicates.
  unfold dates. by rewrite (proj1 (contract _)).
Qed.

Lemma merge_NoDup_dates D B : NoDup (dates (merge sort_values D B)).
Proof. apply strict_NoDup, strict_dates, merge_strict. Qed.
End Contract.

Lemma NoDup_dates_inj l x y :
  NoDup (dates l) → x ∈ l → y ∈ l → date x = date y → x = y.
Proof.
  unfold dates. induction l as [|r l IH]; simpl; [by inversion 2|].
  rewrite NoDup_cons. intros [Hr Hl] Hx Hy E.
  apply elem_of_cons in Hx as [->|Hx], Hy as [->|Hy]; auto.
  - exfalso. apply Hr. rewrite E. by apply list_elem_of_fmap_2.
  - exfalso. apply Hr. rewrite <- E. by apply list_elem_of_fmap_2.
Qed.

#[local] Instance date_lt_antisymm : AntiSymm (=) date_lt.
Proof. intros x y. unfold date_lt. lia. Qed.

(** two frames in strictly ascending date order with the same rows are the
    same frame *)
Lemma strict_ext l1 l2 :
  StronglySorted date_lt l1 → StronglySorted date_lt l2 →
  (∀ x, x ∈ l1 ↔ x ∈ l2) → l1 = l2.
Proof.
  intros H1 H2 Hiff. apply (StronglySorted_unique date_lt); [done..|].
  apply NoDup_Permutation; [| |done];
    eapply NoDup_fmap_1, strict_NoDup, strict_dates; eassumption.
Qed.

Lemma strict_ascending l :
  StronglySorted date_lt l → StronglySorted date_le l.
Proof.
  induction 1 as [|r l Hl IH Hr]; constructor; [done|].
  eapply Forall_impl; [exact Hr|]. unfold date_lt, date_le. intros; lia.
Qed.

(** C3 (sort invariant): whatever sort meets the contract of
    [sort_values], after the merge of any frame with any batch the dates
    read in row order are strictly increasing; equivalently the rows are in
    ascending date order and no date occurs twice. *)
Theorem merge_sort_invariant sort_values :
  sort_contract sort_values →
  ∀ D B,
    StronglySorted Z.lt (dates (merge sort_values D B))
    ∧ StronglySorted date_le (merge sort_values D B)
    ∧ NoDup (dates (merge sort_values D B)).
Proof.
  intros Hc D B. split_and!.
  - by apply strict_dates, merge_strict.
  - by apply strict_ascending, merge_strict.
  - by apply merge_NoDup_dates.
Qed.

Lemma merge_sort_invariant_witness :
  StronglySorted Z.lt
    (dates (merge Stable.sort_values Samples.D16 Samples.B3))
  ∧ StronglySorted date_le (merge Stable.sort_values Samples.D16 Samples.B3)
  ∧ NoDup (dates (merge Stable.sort_values Samples.D16 Samples.B3)).
Proof.
  exact (merge_sort_invariant Stable.sort_values stable_sort_contract
           Samples.D16 Samples.B3).
Defined.

End MergeFacts.

(** ** Which row of a date survives *)

Module SurvivorFacts.
Import Store StoreClaims StoreFacts MergeFacts.

Lemma last_with_elem_of d l x : last_with d l = Some x → x ∈ l ∧ date x = d.
Proof.
  unfold last_with. intros H. apply last_Some_elem_of in H.
  apply list_elem_of_filter in H. tauto.
Qed.

Lemma last_with_is_Some d l : d ∈ dates l → is_Some (last_with d l).
Proof.
  unfold dates, last_with. intros (x & -> & Hx)%list_elem_of_fmap.
  apply last_is_Some. intros E.
  assert (x ∈ filter (λ r, date r = date x) l) as Hf
    by (by apply list_elem_of_filter).
  rewrite E in Hf. by inv Hf.
Qed.

Lemma filter_absent d l : d ∉ dates l → filter (λ r, date r = d) l = [].
Proof.
  unfold dates. induction l as [|r l IH]; simpl; [done|].
  rewrite not_elem_of_cons. intros [Hr Hl].
  rewrite filter_cons, decide_False by done. by apply IH.
Qed.

(** in a frame with one row per date, the rows of a date are at most one *)
Lemma filter_unique d l x :
  NoDup (dates l) → x ∈ l → date x = d → filter (λ r, date r = d) l = [x].
Proof.
  unfold dates. induction l as [|r l IH]; simpl; [by inversion 2|].
  rewrite NoDup_cons. intros [Hr Hl] Hx E. rewrite filter_cons.
  apply elem_of_cons in Hx as [->|Hx].
  - rewrite decide_True by done. f_equal.
    apply filter_absent. by rewrite <- E.
  - rewrite decide_False; [by apply IH|].
    intros Er. apply Hr. rewrite Er, <- E. by apply list_elem_of_fmap_2.
Qed.

Section AnySort.
Variable sort_values : list Row → list Row.
Hypothesis contract : sort_contract sort_values.

Lemma merge_idempotent_fresh D B :
  fresh_batch D B →
  merge sort_values (merge sort_values D B) B = merge sort_values D B.
Proof.
  intros [HB Hfresh].
  set (M := merge sort_values D B).
  assert (∀ x y, x ∈ M ++ B → y ∈ M ++ B → date x = date y → x = y) as agree.
  { assert (∀ x y, x ∈ M → y ∈ B → date x = date y → x = y) as cross.
    { intros x y Hx Hy E.
      apply (merge_subseteq _ contract) in Hx.
      apply elem_of_app in Hx as [Hx|Hx].
      - exfalso. apply (Hfresh (date y)); unfold dates.
        + by apply list_elem_of_fmap_2.
        + rewrite <- E. by apply list_elem_of_fmap_2.
      - by apply (NoDup_dates_inj B). }
    intros x y [Hx|Hx]%elem_of_app [Hy|Hy]%elem_of_app E.
    - apply (NoDup_dates_inj M); auto. by apply merge_NoDup_dates.
    - by apply cross.
    - symmetry. by apply cross.
    - by apply (NoDup_dates_inj B). }
  apply strict_ext; [by apply merge_strict..|]. intros x. split.
  - intros Hx. pose proof (merge_subseteq _ contract _ _ _ Hx) as Hin.
    apply elem_of_app in Hin as [Hin|Hin]; [done|].
    assert (date x ∈ dates M) as Hd.
    { apply (merge_dates _ contract). unfold dates.
      rewrite fmap_app, elem_of_app. right. by apply list_elem_of_fmap_2. }
    unfold dates in Hd. apply list_elem_of_fmap in Hd as (y & E & Hy).
    rewrite (agree x y); auto; apply elem_of_app; auto.
  - intros Hx.
    assert (date x ∈ dates (merge sort_values M B)) as Hd.
    { apply (merge_dates _ contract). unfold dates.
      rewrite fmap_app, elem_of_app. left. by apply list_elem_of_fmap_2. }
    unfold dates in Hd. apply list_elem_of_fmap in Hd as (y & E & Hy).
    pose proof (merge_subseteq _ contract _ _ _ Hy) as Hin.
    rewrite (agree x y); auto. apply elem_of_app; auto.
Qed.
End AnySort.

End SurvivorFacts.

(** ** Idempotence and precedence of the merge *)

Module MergeClaims.
Import Store StoreClaims StoreFacts MergeFacts SurvivorFacts.





End MergeClaims.

(** ** Saving *)

Module PersistFacts.
Import Persist PersistClaims.

Lemma write_lookup path ln (fs : disk) content :
  fs !! path = Some content →
  write path ln fs = <[path := content ++ [ln]]> fs.
Proof.
  intros Hc. unfold write. apply map_eq. intros p.
  destruct (decide (path = p)) as [<-|Hne].
  - by rewrite lookup_alter_eq, lookup_insert_eq, Hc.
  - by rewrite lookup_alter_ne, lookup_insert_ne.
Qed.

Lemma write_lines_unlimited path lines (fs : disk) content :
  fs !! path = Some content →
  write_lines path lines None fs = (<[path := content ++ lines]> fs, true).
Proof.
  revert fs content. induction lines as [|ln lines IH]; intros fs content Hc.
  - simpl. by rewrite app_nil_r, insert_id.
  - simpl. rewrite (write_lookup _ _ _ content) by done.
    rewrite (IH _ (content ++ [ln])) by apply lookup_insert_eq.
    by rewrite insert_insert_eq, <- app_assoc.
Qed.

Lemma write_lines_budget path lines k (fs : disk) content :
  fs !! path = Some content →
  write_lines path lines (Some k) fs
  = (<[path := content ++ take k lines]> fs,
     bool_decide (length lines ≤ k)%nat).
Proof.
  revert fs content k.
  induction lines as [|ln lines IH]; intros fs content k Hc.
  - cbn [write_lines]. rewrite take_nil, app_nil_r, insert_id by done.
    f_equal; try (symmetry; apply bool_decide_eq_true; simpl; lia).
  - destruct k as [|k]; cbn [write_lines].
    + rewrite take_0, app_nil_r, insert_id by done.
      f_equal; try (symmetry; apply bool_decide_eq_false; simpl; lia).
    + rewrite (write_lookup _ _ _ content) by done.
      rewrite (IH _ (content ++ [ln])) by apply lookup_insert_eq.
      rewrite insert_insert_eq, <- app_assoc.
      f_equal; try (apply bool_decide_ext; simpl; lia).
Qed.

(** what [to_csv] leaves on disk, by fault *)
Lemma to_csv_disk path columns df f (fs : disk) :
  to_csv path columns df f fs
  = match f with
    | NoFault => (<[path := csv_lines columns df]> fs, true)
    | OpenFails => (fs, false)
    | WriteFails k =>
        (<[path := take k (csv_lines columns df)]> fs,
         bool_decide (length (csv_lines columns df) ≤ k)%nat)
    end.
Proof.
  unfold to_csv, open_w. destruct f as [| |k]; [|done|].
  - rewrite (write_lines_unlimited _ _ _ []) by apply lookup_insert_eq.
    by rewrite insert_insert_eq.
  - rewrite (write_lines_budget _ _ _ _ []) by apply lookup_insert_eq.
    by rewrite insert_insert_eq.
Qed.

(** C4, as stated, fails on the code: when the write fails before the
    first line is out, the stored file of sixteen days is left empty. *)
Lemma save_atomic_fails : ¬ save_atomic.
Proof.
  intros H.
  specialize (H COLUMNS Samples.B3 (WriteFails 0)
                ({[CSV_FILE := csv_lines COLUMNS Samples.D16]} : disk)).
  unfold save in H. rewrite to_csv_disk in H. simpl in H.
  rewrite lookup_insert_eq, lookup_singleton_eq in H.
  specialize (H eq_refl). discriminate H.
Qed.

(** C4 (save), amended: the save writes the frame straight into the target
    path, which it truncates first; no temporary file is involved.  When
    nothing fails the file holds the whole frame.  When opening fails the
    disk is unchanged.  When the write fails after [k] lines the file holds
    just the first [k] lines of the new frame, and what it held before is
    lost.  No other path is touched. *)
Theorem save_in_place columns df_combined f (fs : disk) :
  let after := save columns df_combined f fs in
  (∀ p, p ≠ CSV_FILE → after.1 !! p = fs !! p)
  ∧ match f with
    | NoFault =>
        after.2 = true
        ∧ after.1 !! CSV_FILE = Some (csv_lines columns df_combined)
    | OpenFails => after.2 = false ∧ after.1 = fs
    | WriteFails k =>
        after.2
        = bool_decide (length (csv_lines columns df_combined) ≤ k)%nat
        ∧ after.1 !! CSV_FILE
          = Some (take k (csv_lines columns df_combined))
    end.
Proof.
  unfold save. rewrite to_csv_disk. destruct f as [| |k]; simpl.
  - split; [intros p Hp; by rewrite lookup_insert_ne|].
    by rewrite lookup_insert_eq.
  - done.
  - split; [intros p Hp; by rewrite lookup_insert_ne|].
    by rewrite lookup_insert_eq.
Qed.

End PersistFacts.

(** ** Counting by year *)

Module YearFacts.
Import Analyze AnalyzeClaims.

Lemma unique_from_elem_of {A} `{EqDecision A} (seen l : list A) x :
  x ∈ Py.unique_from seen l ↔ x ∈ l ∧ x ∉ seen.
Proof.
  revert seen. induction l as [|a l IH]; intros seen; simpl.
  - split; [by inversion 1|]. intros [H' _]. by inv H'.
  - case_decide as Ha.
    + rewrite IH, elem_of_cons. split; [tauto|].
      intros [[->|?] ?]; [done|tauto].
    + rewrite elem_of_cons, IH, (elem_of_cons l x a). split.
      * intros [->|[Hl Hns]]; [by split; [left|]|].
        split; [by right|]. intros Hs. apply Hns. by right.
      * intros [[->|Hl] Hns]; [by left|].
        destruct (decide (x = a)) as [->|Hne]; [by left|].
        right. split; [done|]. by intros [?|?]%elem_of_cons.
Qed.

Lemma unique_from_NoDup {A} `{EqDecision A} (seen l : list A) :
  NoDup (Py.unique_from seen l).
Proof.
  revert seen. induction l as [|a l IH]; intros seen; simpl; [constructor|].
  case_decide; [done|]. constructor; [|done].
  rewrite unique_from_elem_of, not_elem_of_cons. tauto.
Qed.

Lemma unique_elem_of {A} `{EqDecision A} (l : list A) x :
  x ∈ Py.unique l ↔ x ∈ l.
Proof.
  unfold Py.unique. rewrite unique_from_elem_of. split; [tauto|].
  intros ?. split; [done|]. by inversion 1.
Qed.

Lemma sorted_ascending l : StronglySorted Z.le (Py.sorted l).
Proof. apply StronglySorted_merge_sort; apply _. Qed.

Lemma sorted_Permutation l : Py.sorted l ≡ₚ l.
Proof. apply merge_sort_Permutation. Qed.

Lemma ascending_NoDup_strict (l : list Z) :
  StronglySorted Z.le l → NoDup l → StronglySorted Z.lt l.
Proof.
  induction 1 as [|x l Hl IH Hx]; [constructor|].
  rewrite NoDup_cons. intros [Hn Hd]. constructor; [auto|].
  apply Forall_forall. intros y Hy.
  rewrite Forall_forall in Hx. specialize (Hx y Hy).
  assert (x ≠ y) by (by intros ->). lia.
Qed.

(** [all_years]: the years of the frame, ascending, each once *)
Lemma all_years_strict df :
  StronglySorted Z.lt (Py.sorted (Py.unique (year <$> df))).
Proof.
  apply ascending_NoDup_strict; [apply sorted_ascending|].
  rewrite sorted_Permutation. apply unique_from_NoDup.
Qed.

Lemma all_years_elem_of df y :
  y ∈ Py.sorted (Py.unique (year <$> df)) ↔ y ∈ year <$> df.
Proof. by rewrite sorted_Permutation, unique_elem_of. Qed.

Lemma seqZ_strict m n : StronglySorted Z.lt (seqZ m n).
Proof.
  destruct (decide (n ≤ 0)) as [Hn|Hn]; [rewrite seqZ_nil by done; constructor|].
  rewrite <- (Z2Nat.id n) by lia. generalize (Z.to_nat n) as k. clear.
  intros k. revert m. induction k as [|k IH]; intros m.
  - rewrite seqZ_nil by done. constructor.
  - rewrite seqZ_cons by lia. constructor.
    + replace (Z.pred (Z.of_nat (S k))) with (Z.of_nat k) by lia. apply IH.
    + apply Forall_forall. intros y Hy. apply elem_of_seqZ in Hy. lia.
Qed.

#[local] Instance Z_lt_antisymm : AntiSymm (=) Z.lt.
Proof. intros x y. lia. Qed.

(** a strictly ascending list whose members are [lo .. hi] is that range *)
Lemma strict_range (l : list Z) lo hi :
  StronglySorted Z.lt l → (∀ y, y ∈ l ↔ lo ≤ y ≤ hi) →
  l = seqZ lo (hi - lo + 1).
Proof.
  intros Hs Hm. apply (StronglySorted_unique Z.lt); [done|apply seqZ_strict|].
  apply NoDup_Permutation.
  - by apply StoreFacts.strict_NoDup.
  - apply NoDup_seqZ.
  - intros y. rewrite Hm, elem_of_seqZ. lia.
Qed.

Lemma filter_eq_absent (keys : list Z) k :
  k ∉ keys → filter (λ x, x = k) keys = [].
Proof.
  induction keys as [|a keys IH]; [done|].
  intros [? ?]%not_elem_of_cons.
  rewrite filter_cons, decide_False by done. auto.
Qed.

Lemma groupby_size_lookup keys k :
  groupby_size keys !! k
  = if decide (k ∈ keys) then Some (length (filter (λ x, x = k) keys))
    else None.
Proof.
  induction keys as [|a keys IH]; simpl.
  - rewrite lookup_empty. by destruct (decide (k ∈ [])) as [Hin|]; [inv Hin|].
  - rewrite filter_cons. destruct (decide (a = k)) as [->|Hne].
    + rewrite lookup_insert_eq, IH.
      destruct (decide (k ∈ k :: keys)) as [_|Hn]; [|by destruct Hn; left].
      destruct (decide (k ∈ keys)); simpl; [done|].
      by rewrite filter_eq_absent.
    + rewrite lookup_insert_ne, IH by done.
      destruct (decide (k ∈ keys)) as [Hin|Hin],
               (decide (k ∈ a :: keys)) as [Hin'|Hin']; try done.
      * destruct Hin'. by right.
      * apply elem_of_cons in Hin' as [->|?]; done.
Qed.

Lemma series_get_count keys k :
  series_get (groupby_size keys) k 0 = length (filter (λ x, x = k) keys).
Proof.
  unfold series_get. rewrite groupby_size_lookup.
  case_decide as Hin; [done|]. simpl. by rewrite filter_eq_absent.
Qed.

Lemma count_year_filter (P : Row → Prop) `{!∀ r, Decision (P r)} df y :
  length (filter (λ x, x = y) (year <$> filter P df))
  = length (filter (λ r, year r = y ∧ P r) df).
Proof.
  induction df as [|r df IH]; [done|].
  rewrite (filter_cons P). rewrite (filter_cons (λ r, year r = y ∧ P r)).
  destruct (decide (P r)) as [HP|HP].
  - rewrite fmap_cons, filter_cons.
    destruct (decide (year r = y)).
    + rewrite decide_True by done. simpl. by rewrite IH.
    + rewrite decide_False by tauto. done.
  - rewrite decide_False by tauto. done.
Qed.

Lemma fst_fmap_pair {A B} (g : A → B) (l : list A) :
  ((λ y, (y, g y)) <$> l).*1 = l.
Proof. induction l as [|a l IH]; simpl; [done|]. by f_equal. Qed.

(** the printed lines of both cold-day analyses have this shape *)
Lemma dense_report_intro (P : Row → Prop) `{!∀ r, Decision (P r)} df :
  dense_report P df
    ((λ y, (y, series_get (groupby_size (year <$> filter P df)) y 0))
     <$> Py.sorted (Py.unique (year <$> df))).
Proof.
  unfold dense_report. rewrite fst_fmap_pair. split_and!.
  - apply all_years_strict.
  - apply all_years_elem_of.
  - intros y n (y' & [= <- ->] & _)%list_elem_of_fmap.
    by rewrite series_get_count, count_year_filter.
  - intros lo hi Hm. rewrite length_fmap.
    rewrite (strict_range _ lo hi), length_seqZ; [done|apply all_years_strict|].
    intros y. by rewrite all_years_elem_of.
Qed.

(** C6 (dense year counting): the per-year lines that analyze_cold_days
    and analyze_extreme_cold_days print have exactly one entry for every
    year that appears in the frame, in ascending order, each with the
    number of its qualifying days, 0 included; a frame whose years are
    2020..2025 gets six entries. *)
Theorem dense_year_counting df :
  dense_report (λ r, min_temp_c r < -10) df (printed (analyze_cold_days df))
  ∧ dense_report (λ r, max_temp_c r < -10) df
      (printed (analyze_extreme_cold_days df))
  ∧ printed (analyze_cold_days six_years)
    = [(2020, 1%nat); (2021, 0%nat); (2022, 2%nat); (2023, 0%nat);
       (2024, 0%nat); (2025, 1%nat)]
  ∧ printed (analyze_extreme_cold_days six_years)
    = [(2020, 0%nat); (2021, 0%nat); (2022, 1%nat); (2023, 0%nat);
       (2024, 0%nat); (2025, 0%nat)].
Proof.
  split_and!.
  - apply (dense_report_intro (λ r, min_temp_c r < -10)).
  - apply (dense_report_intro (λ r, max_temp_c r < -10)).
  - vm_compute. reflexivity.
  - vm_compute. reflexivity.
Qed.

(** the Series the functions return has no entry for a year without a
    qualifying day *)
Lemma returned_series_sparse df y :
  returned (analyze_cold_days df) !! y = None
  ↔ ¬ ∃ r, r ∈ df ∧ year r = y ∧ min_temp_c r < -10.
Proof.
  simpl. rewrite groupby_size_lookup. case_decide as Hin.
  - split; [done|]. intros Hno. exfalso. apply Hno.
    apply list_elem_of_fmap in Hin as (r & -> & Hr).
    apply list_elem_of_filter in Hr as [? ?]. eauto.
  - split; [|done]. intros _ (r & Hr & <- & Hc). apply Hin.
    apply list_elem_of_fmap_2. by apply list_elem_of_filter.
Qed.

End YearFacts.

(** ** Streaks *)

Module StreakFacts.
Import Analyze StreakClaims.

Section Scan.
Variable predicate : Row → bool.

Lemma fold_reported rows st :
  let st' := fold_left (streak_step predicate) rows st in
  (if (0 <? current_streak st')%nat
   then streaks st' ++ [(streak_start st', current_streak st')]
   else streaks st')
  = streaks st ++ reported predicate (current_streak st) (streak_start st) rows.
Proof.
  revert st. induction rows as [|r rows IH]; intros st; simpl.
  - destruct (0 <? current_streak st)%nat; [done|by rewrite app_nil_r].
  - rewrite IH. unfold streak_step.
    destruct (predicate r); simpl; [done|].
    destruct (0 <? current_streak st)%nat; simpl; [|done].
    by rewrite <- app_assoc.
Qed.

Lemma cold_streaks_reported rows :
  (cold_streaks predicate rows).1 = reported predicate 0 None rows.
Proof. unfold cold_streaks. simpl. by rewrite fold_reported. Qed.

Lemma reported_runs rows : ∀ before open start s,
  Forall (λ r, predicate r = true) open →
  (open ≠ [] → start = date <$> head open) →
  (∀ r, last before = Some r → predicate r = false) →
  s ∈ reported predicate (length open) start rows →
  row_run predicate (before ++ open ++ rows) s.
Proof.
  induction rows as [|r rows IH]; intros before open start s Hopen Hstart Hb.
  - simpl. destruct open as [|o open]; simpl; [by inversion 1|].
    intros ->%list_elem_of_singleton.
    exists before, (o :: open), []. split_and!; try done.
    by rewrite (Hstart ltac:(done)).
  - simpl. destruct (predicate r) eqn:Hr.
    + intros Hs.
      replace (before ++ open ++ r :: rows)
        with (before ++ (open ++ [r]) ++ rows)
        by (by rewrite <- (app_assoc open)).
      apply (IH before (open ++ [r])
               (if (length open =? 0)%nat then Some (date r) else start)).
      * apply Forall_app. split; [done|]. by constructor.
      * intros _. destruct open as [|o open]; simpl; [done|].
        by apply Hstart.
      * done.
      * by rewrite length_app, Nat.add_1_r.
    + intros [Hs|Hs]%elem_of_app.
      * destruct open as [|o open]; simpl in Hs; [by inv Hs|].
        apply list_elem_of_singleton in Hs as ->.
        exists before, (o :: open), (r :: rows). split_and!; try done.
        -- by rewrite (Hstart ltac:(done)).
        -- by intros ? [= <-].
      * replace (before ++ open ++ r :: rows)
          with ((before ++ open ++ [r]) ++ [] ++ rows)
          by (by rewrite <- !app_assoc).
        apply (IH _ [] start); try done.
        intros q. rewrite !app_assoc, last_snoc. by intros [= <-].
Qed.

(** an open run grows by the rows that satisfy the predicate *)
Lemma fold_run run : ∀ st,
  Forall (λ r, predicate r = true) run →
  current_streak st = 0%nat → run ≠ [] →
  let st' := fold_left (streak_step predicate) run st in
  current_streak st' = length run
  ∧ streak_start st' = date <$> head run
  ∧ streaks st' = streaks st.
Proof.
  assert (∀ run st, Forall (λ r, predicate r = true) run →
            let st' := fold_left (streak_step predicate) run st in
            current_streak st' = (current_streak st + length run)%nat
            ∧ streak_start st'
              = (if (current_streak st =? 0)%nat
                 then match run with
                      | [] => streak_start st
                      | r :: _ => Some (date r)
                      end
                 else streak_start st)
            ∧ streaks st' = streaks st) as gen.
  { clear run. induction run as [|r run IH]; intros st Hrun; simpl.
    - split_and!; [lia| |done]. by destruct (current_streak st =? 0)%nat.
    - inversion_clear Hrun as [|? ? Hr Hrest].
      destruct (IH (streak_step predicate st r) Hrest) as (E1 & E2 & E3).
      rewrite E1, E2, E3. unfold streak_step. rewrite Hr. simpl.
      split_and!; [lia|done|done]. }
  intros st Hrun Hcur Hne. destruct (gen run st Hrun) as (E1 & E2 & E3).
  rewrite Hcur in E1, E2. simpl in *.
  destruct run as [|r run]; [done|]. by split_and!.
Qed.

Lemma fold_closed before : ∀ st,
  (∀ r, last before = Some r → predicate r = false) →
  (before = [] → current_streak st = 0%nat) →
  current_streak (fold_left (streak_step predicate) before st) = 0%nat.
Proof.
  intros st Hlast Hnil.
  destruct (decide (before = [])) as [->|Hne]; [by apply Hnil|].
  apply last_is_Some in Hne as [r Hr].
  apply last_Some in Hr as Hb. destruct Hb as [b' ->].
  rewrite fold_left_app. simpl. unfold streak_step.
  by rewrite (Hlast r Hr).
Qed.

Lemma consecutive_lookup l : ∀ i r0 r,
  consecutive_days l → l !! 0%nat = Some r0 → l !! i = Some r →
  date r = date r0 + Z.of_nat i.
Proof.
  intros i. induction i as [|i IH]; intros r0 r Hc H0 Hi.
  - rewrite H0 in Hi. injection Hi as <-. lia.
  - destruct (l !! i) as [q|] eqn:Hq.
    + rewrite (Hc i q r Hq Hi), (IH r0 q Hc H0 eq_refl). lia.
    + apply lookup_ge_None in Hq. apply lookup_lt_Some in Hi. lia.
Qed.

Lemma consecutive_middle before run after :
  consecutive_days (before ++ run ++ after) → consecutive_days run.
Proof.
  intros Hc i r q Hr Hq.
  apply (Hc (length before + i)%nat r q).
  - rewrite lookup_app_r by lia.
    replace (length before + i - length before)%nat with i by lia.
    by apply lookup_app_l_Some.
  - replace (S (length before + i)) with (length before + S i)%nat by lia.
    rewrite lookup_app_r by lia.
    replace (length before + S i - length before)%nat with (S i) by lia.
    by apply lookup_app_l_Some.
Qed.

Lemma row_run_calendar year_data s :
  consecutive_days year_data → row_run predicate year_data s →
  calendar_run predicate year_data s.
Proof.
  intros Hc (before & run & after & -> & Hne & Hrun & -> & _ & _).
  destruct run as [|r0 run]; [done|]. exists (date r0). split; [done|].
  intros k Hk. simpl in Hk.
  destruct ((r0 :: run) !! Z.to_nat k) as [r|] eqn:Hr.
  - exists r. split_and!.
    + apply elem_of_app. right. apply elem_of_app. left.
      by eapply list_elem_of_lookup_2.
    + rewrite (consecutive_lookup (r0 :: run) (Z.to_nat k) r0 r); [lia| |done..].
      by eapply consecutive_middle.
    + rewrite Forall_forall in Hrun. apply Hrun.
      by eapply list_elem_of_lookup_2.
  - apply lookup_ge_None in Hr. simpl in Hr. lia.
Qed.
End Scan.

End StreakFacts.

(** ** The streak claim *)

Module StreakClaimFacts.
Import Analyze StreakClaims StreakFacts.

(** C5: the loop does not compare the dates of the rows.  Two cold days
    with the day between them missing from the data are reported as one
    streak of two consecutive days starting on the first. *)
Lemma streaks_are_calendar_runs_fails : ¬ streaks_are_calendar_runs cold_max.
Proof.
  intros H.
  destruct (H gap_days) with (s := (Some Samples.jan1, 2%nat))
    as (start & Hstart & Hdays).
  - repeat constructor; unfold date_lt; simpl; lia.
  - vm_compute. left.
  - simpl in Hstart. injection Hstart as <-.
    destruct (Hdays 1) as (r & Hr & Hdate & _); [simpl; lia|].
    unfold gap_days in Hr. rewrite !elem_of_cons, elem_of_nil in Hr.
    destruct Hr as [->|[->|[]]]; simpl in Hdate; lia.
Qed.

(** X23 (the streak loop, analyze_january_patterns.py lines 58-80): every
    reported streak is a maximal run of rows that follow one another in the
    order scanned and all satisfy the predicate, reported by the date of
    its first row and the number of its rows; when every row is dated the
    day after the row before it, these are runs of consecutive calendar
    dates; a run still open when the period ends is reported; and on maxima
    -6,-7,-8,3,-6,-6 over six successive days with the predicate
    max_temp_c < -5 the streaks are exactly (day 1, 3) and (day 5, 2). *)
Theorem cold_streaks_row_runs predicate year_data :
  (∀ s, s ∈ (cold_streaks predicate year_data).1 →
     row_run predicate year_data s)
  ∧ (consecutive_days year_data →
     ∀ s, s ∈ (cold_streaks predicate year_data).1 →
       calendar_run predicate year_data s)
  ∧ (∀ before run,
       year_data = before ++ run → run ≠ [] →
       Forall (λ r, predicate r = true) run →
       (∀ r, last before = Some r → predicate r = false) →
       (cold_streaks predicate year_data).1
       = (cold_streaks predicate before).1
         ++ [(date <$> head run, length run)])
  ∧ (∀ d0, cold_streaks cold_max (six_days d0)
           = ([(Some d0, 3%nat); (Some (d0 + 4), 2%nat)], 3%nat)).
Proof.
  assert (∀ s, s ∈ (cold_streaks predicate year_data).1 →
               row_run predicate year_data s) as Hruns.
  { intros s. rewrite cold_streaks_reported. intros Hs.
    by apply (reported_runs predicate year_data [] [] None s). }
  split_and!.
  - exact Hruns.
  - intros Hc s Hs. apply row_run_calendar; auto.
  - intros before run -> Hne Hrun Hlast.
    unfold cold_streaks. rewrite fold_left_app.
    set (st := fold_left (streak_step predicate) before streak_init).
    assert (current_streak st = 0%nat) as Hcur
      by (by apply fold_closed).
    destruct (fold_run predicate run st Hrun Hcur Hne) as (E1 & E2 & E3).
    simpl. rewrite E1, E2, E3, Hcur. simpl.
    by destruct run.
  - intros d0. reflexivity.
Qed.

End StreakClaimFacts.

(** ** The wind fields of a fetched day *)

Module WindFieldFacts.
Import Update UpdateClaims.

Section Fields.
Context `{!Float.Arithmetic}.

(** a single reading with a whole-number speed is stored as it is *)
Lemma single_speed day h x k :
  hourly day = Some [h] → windspeedKmph h = Some x →
  (x == inject_Z k)%Q → Z.abs k ≤ 2 ^ 53 →
  ∃ q, wind_speed_kmph (make_record day) = Some q ∧ (q == inject_Z k)%Q.
Proof.
  intros Hh Hx Hk Hb. exists (Float.py_round1 (Float.py_mean [x])). split.
  - unfold make_record. rewrite Hh. simpl. by rewrite Hx.
  - apply Float.py_round1_whole; [|done]. by apply Float.py_mean_whole.
Qed.

(** a day without a speed sample is stored with speed 0 *)
Lemma no_speed day :
  omap windspeedKmph (default [empty_hourly] (hourly day)) = [] →
  ∃ q, wind_speed_kmph (make_record day) = Some q ∧ (q == 0)%Q.
Proof.
  intros Hs. exists (Float.py_round1 (0 # 1)). split.
  - unfold make_record. cbn [wind_speed_kmph]. by rewrite Hs.
  - apply (Float.py_round1_whole _ 0); [done|]. simpl. lia.
Qed.


End Fields.

Section Sample.
#[local] Existing Instance Float.exact.


(** the day is stored with wind speed 14, direction WSW and gust 27 *)
Lemma one_reading_record :
  wind_speed_kmph (make_record one_reading) = Some (140 # 10)%Q
  ∧ wind_direction (make_record one_reading) = Some "WSW"
  ∧ wind_gust_kmph (make_record one_reading) = Some (27 # 1)%Q.
Proof. vm_compute. by split_and!. Qed.

End Sample.

End WindFieldFacts.

(** ** The date window of the update *)

Module UpdateFacts.
Import Store StoreClaims StoreFacts MergeFacts Update UpdateClaims.

Section Window.
Context `{!Float.Arithmetic}.

Lemma max_date_ge df m r : max_date df = Some m → r ∈ df → date r ≤ m.
Proof.
  unfold max_date, dates. destruct df as [|r0 df]; [done|].
  simpl. intros [= <-] Hr.
  assert (∀ q, q ∈ df → date q ≤ foldr Z.max (date r0) (date <$> df)) as Htl.
  { clear. induction df as [|a df IH]; intros q; [by inversion 1|].
    rewrite fmap_cons. cbn [foldr].
    intros [->|Hq]%elem_of_cons; [lia|]. specialize (IH q Hq). lia. }
  assert (date r0 ≤ foldr Z.max (date r0) (date <$> df)) as Hhd.
  { clear. induction df as [|a df IH]; [simpl; lia|].
    rewrite fmap_cons. cbn [foldr]. lia. }
  apply elem_of_cons in Hr as [->|Hr]; auto.
Qed.

Lemma new_records_window today fetch_month_data start_date months r :
  r ∈ new_records today fetch_month_data start_date months →
  start_date ≤ date r ≤ today.
Proof.
  unfold new_records. rewrite list_elem_of_In, in_flat_map.
  intros (ym & _ & Hr). rewrite <- list_elem_of_In in Hr.
  destruct (fetch_month_data ym.1 ym.2) as [month_data|]; [|by inv Hr].
  apply list_elem_of_fmap in Hr as (day & -> & Hday).
  apply list_elem_of_filter in Hday as [Hwin _].
  change (date (make_record day)) with (day_date day). lia.
Qed.

(** what a run that reaches the merge has done *)
Lemma update_Updated sort_values today fetch_month_data csv df_new df_combined :
  update sort_values today fetch_month_data csv = Updated df_new df_combined →
  ∃ df_existing last_date,
    csv = Some df_existing
    ∧ max_date df_existing = Some last_date
    ∧ last_date + 1 ≤ today
    ∧ df_new = new_records today fetch_month_data (last_date + 1)
                 (months_to_fetch (last_date + 1) today)
    ∧ df_new ≠ []
    ∧ df_combined = merge sort_values df_existing df_new.
Proof.
  unfold update. destruct csv as [df_existing|]; [|done].
  destruct (max_date df_existing) as [last_date|] eqn:Hmax; [|done].
  destruct (today <? last_date + 1) eqn:Hlt; [done|].
  apply Z.ltb_ge in Hlt.
  destruct (new_records _ _ _ _) as [|r0 rs] eqn:Hnew; [done|].
  intros [= <- <-]. exists df_existing, last_date. by split_and!.
Qed.

(** a stored row survives the merge when the frame has no other row of its
    date and the batch does not bring the date *)
Lemma merge_keeps sort_values D B r :
  sort_contract sort_values →
  r ∈ D → (∀ q, q ∈ D → date q = date r → q = r) →
  (∀ q, q ∈ B → date q ≠ date r) →
  r ∈ merge sort_values D B.
Proof.
  intros Hc Hr Huniq Hfresh.
  assert (date r ∈ dates (merge sort_values D B)) as Hd.
  { apply (merge_dates _ Hc). unfold dates.
    rewrite fmap_app, elem_of_app. left. by apply list_elem_of_fmap_2. }
  unfold dates in Hd. apply list_elem_of_fmap in Hd as (m & E & Hm).
  pose proof (merge_subseteq _ Hc _ _ _ Hm) as Hin.
  apply elem_of_app in Hin as [Hin|Hin].
  - by rewrite <- (Huniq m Hin).
  - by destruct (Hfresh m Hin).
Qed.

(** C9 (date window of the update): in every run of the update that
    reaches the merge, on a stored frame with one row per date, each new
    record is dated after the last date of the stored frame and not after
    today, so no new record has the date of a stored one, and every stored
    row appears unchanged in the updated frame. *)
Theorem update_window sort_values today fetch_month_data
    df_existing df_new df_combined :
  sort_contract sort_values →
  NoDup (dates df_existing) →
  update sort_values today fetch_month_data (Some df_existing)
  = Updated df_new df_combined →
  ∃ last_date,
    max_date df_existing = Some last_date
    ∧ (∀ q, q ∈ df_existing → date q ≤ last_date)
    ∧ (∀ r, r ∈ df_new → last_date < date r ≤ today)
    ∧ (∀ r q, r ∈ df_new → q ∈ df_existing → date r ≠ date q)
    ∧ (∀ q, q ∈ df_existing → q ∈ df_combined).
Proof.
  intros Hc Hnd Hrun.
  apply update_Updated in Hrun
    as (df & last_date & [= <-] & Hmax & Htoday & Hnew & Hne & ->).
  assert (∀ r, r ∈ df_new → last_date < date r ≤ today) as Hwin.
  { intros r Hr. rewrite Hnew in Hr. apply new_records_window in Hr. lia. }
  assert (∀ r q, r ∈ df_new → q ∈ df_existing → date r ≠ date q) as Hfresh.
  { intros r q Hr Hq. specialize (Hwin r Hr).
    pose proof (max_date_ge _ _ _ Hmax Hq). lia. }
  exists last_date. split_and!; auto.
  - intros q Hq. by eapply max_date_ge.
  - intros q Hq. apply merge_keeps; auto.
    intros q' Hq' E. by apply (NoDup_dates_inj df_existing).
Qed.

End Window.

Section Sample.
#[local] Existing Instance Float.exact.

Lemma update_window_witness :
  ∃ last_date,
    max_date Samples.D16 = Some last_date
    ∧ (∀ q, q ∈ Samples.D16 → date q ≤ last_date)
    ∧ (∀ r, r ∈ make_record <$> [three_readings; one_reading] →
         last_date < date r ≤ Samples.jan1 + 17)
    ∧ (∀ r q, r ∈ make_record <$> [three_readings; one_reading] →
         q ∈ Samples.D16 → date r ≠ date q)
    ∧ (∀ q, q ∈ Samples.D16 →
         q ∈ merge Unstable.sort_values Samples.D16
               (make_record <$> [three_readings; one_reading])).
Proof.
  apply (update_window Unstable.sort_values (Samples.jan1 + 17) january_api
           Samples.D16 (make_record <$> [three_readings; one_reading])
           (merge Unstable.sort_values Samples.D16
              (make_record <$> [three_readings; one_reading]))).
  - exact unstable_sort_contract.
  - apply (bool_decide_unpack _). vm_compute. exact I.
  - vm_compute. reflexivity.
Defined.

End Sample.

End UpdateFacts.

(** ** The wind scripts *)

Module WindFacts.
Import Wind WindSamples.

Section Column.
Context `{!Float.Arithmetic}.

(** C8 (missing wind column): on a file without the wind_speed_kmph column
    both wind scripts stop with exit status 1 and an error message before
    computing anything; when the file exists the message is the one that
    names the missing wind data. *)
Theorem missing_wind_column input_exists df :
  "wind_speed_kmph" ∉ columns df →
  (∃ message, visualize_wind input_exists df = Exit 1 message)
  ∧ (∃ message, plot_interactive_wind input_exists df = Exit 1 message)
  ∧ (input_exists = true →
     visualize_wind input_exists df
     = Exit 1 "Error: No wind data in CSV file!"
     ∧ plot_interactive_wind input_exists df
       = Exit 1 "Error: No wind data in CSV file!").
Proof.
  intros Hcol. unfold visualize_wind, plot_interactive_wind.
  rewrite !bool_decide_eq_false_2 by done.
  destruct input_exists; simpl; split_and!; eauto; done.
Qed.

End Column.

Section ColumnSample.
#[local] Existing Instance Float.exact.

Lemma missing_wind_column_witness :
  (∃ message, visualize_wind true old_frame = Exit 1 message)
  ∧ (∃ message, plot_interactive_wind true old_frame = Exit 1 message)
  ∧ (true = true →
     visualize_wind true old_frame = Exit 1 "Error: No wind data in CSV file!"
     ∧ plot_interactive_wind true old_frame
       = Exit 1 "Error: No wind data in CSV file!").
Proof.
  apply (missing_wind_column true old_frame).
  apply (bool_decide_eq_false_1 _). vm_compute. reflexivity.
Defined.

End ColumnSample.

Lemma has_wind_positive r :
  has_wind r → ∃ q, wind_speed_kmph r = Some q ∧ (0 < q)%Q.
Proof.
  unfold has_wind, Qpositive. destruct (wind_speed_kmph r) as [q|]; [|done].
  intros Hq. exists q. split; [done|].
  apply Qnot_le_lt. intros Hle. apply Qle_bool_iff in Hle.
  by rewrite Hle in Hq.
Qed.

Lemma zero_wind_excluded r q :
  wind_speed_kmph r = Some q → (q == 0)%Q → ¬ has_wind r.
Proof.
  intros Hr Hq Hw. apply has_wind_positive in Hw as (q' & Hq' & Hpos).
  rewrite Hr in Hq'. injection Hq' as <-. rewrite Hq in Hpos.
  by apply Qlt_irrefl in Hpos.
Qed.

Lemma speeds_positive (l : list Row) q :
  q ∈ omap wind_speed_kmph (filter (λ r, has_wind r) l) → (0 < q)%Q.
Proof.
  intros (r & Hr & Hq)%list_elem_of_omap.
  apply list_elem_of_filter in Hr as [Hw _].
  apply has_wind_positive in Hw as (q' & Hq' & Hpos). congruence.
Qed.

Lemma series_min_positive cells :
  cells ≠ [] → (∀ q, q ∈ cells → (0 < q)%Q) →
  ∃ m, series_min cells = Some m ∧ (0 < m)%Q.
Proof.
  destruct cells as [|c cs]; [done|]. intros _ Hpos. simpl.
  eexists. split; [done|].
  assert (0 < c)%Q as Hc by (apply Hpos; left).
  assert (∀ q, q ∈ cs → (0 < q)%Q) as Hcs by (intros q Hq; apply Hpos; by right).
  clear Hpos. induction cs as [|a cs IH]; simpl; [done|].
  apply Q.min_glb_lt; [apply Hcs; left|].
  apply IH. intros q Hq. apply Hcs. by right.
Qed.

(** rows recorded with wind speed 0 can be taken out of the frame
    beforehand without changing the rows the statistics are taken over *)
Lemma recorded_calm_excluded r : recorded_calm r → ¬ has_wind r.
Proof.
  unfold recorded_calm. destruct (wind_speed_kmph r) as [q|] eqn:Hr; [|done].
  intros Hq%Is_true_true%Qeq_bool_iff. by apply (zero_wind_excluded r q).
Qed.

Lemma filter_has_wind_calm (l : list Row) :
  filter (λ r, has_wind r) (filter (λ r, ¬ recorded_calm r) l)
  = filter (λ r, has_wind r) l.
Proof.
  rewrite list_filter_filter. apply list_filter_iff. intros r.
  split; [tauto|]. intros Hw. split; [done|].
  intros Hc. by apply (recorded_calm_excluded r).
Qed.

Section Calm.
Context `{!Float.Arithmetic}.

(** C10 (calm days): whenever visualize_wind gets to its statistics, the
    average, maximum and minimum wind speed are taken over the rows with a
    wind speed above 0 only, and the direction frequencies over those of
    them with a valid direction.  A row recorded with wind speed 0 is in
    neither set, taking such rows out of the frame beforehand changes none
    of these statistics, and the minimum is strictly positive. *)
Theorem wind_statistics_exclude_calm input_exists df s :
  visualize_wind input_exists df = Done s →
  df_wind s = filter (λ r, has_wind r) (rows df)
  ∧ df_direction s = filter (λ r, valid_direction r) (df_wind s)
  ∧ average_wind_speed s = series_mean (omap wind_speed_kmph (df_wind s))
  ∧ maximum_wind_speed s = series_max (omap wind_speed_kmph (df_wind s))
  ∧ minimum_wind_speed s = series_min (omap wind_speed_kmph (df_wind s))
  ∧ direction_counts s = value_counts (omap wind_direction (df_direction s))
  ∧ (∀ r, r ∈ df_wind s → ∃ q, wind_speed_kmph r = Some q ∧ (0 < q)%Q)
  ∧ (∀ r, r ∈ rows df → recorded_calm r →
       (r ∉ df_wind s) ∧ (r ∉ df_direction s))
  ∧ (∃ m, minimum_wind_speed s = Some m ∧ (0 < m)%Q)
  ∧ (∃ s', visualize_wind input_exists
             (mkDataFrame (columns df)
                (filter (λ r, ¬ recorded_calm r) (rows df)))
           = Done s'
           ∧ df_wind s' = df_wind s
           ∧ df_direction s' = df_direction s
           ∧ average_wind_speed s' = average_wind_speed s
           ∧ maximum_wind_speed s' = maximum_wind_speed s
           ∧ minimum_wind_speed s' = minimum_wind_speed s
           ∧ direction_counts s' = direction_counts s).
Proof.
  unfold visualize_wind. destruct input_exists; [|done]. simpl.
  destruct (bool_decide _) eqn:Hcol; [|done].
  rewrite filter_has_wind_calm.
  destruct (filter (λ r, has_wind r) (rows df)) as [|r0 rs] eqn:Hw; [done|].
  intros [= <-].
  cbn [df_wind df_direction average_wind_speed maximum_wind_speed
       minimum_wind_speed direction_counts].
  split_and!; try done; [| | |by eexists; split_and!].
  - intros r Hr. rewrite <- Hw in Hr.
    apply list_elem_of_filter in Hr as [Hr _]. by apply has_wind_positive.
  - intros r _ Hcalm.
    assert (r ∉ r0 :: rs) as Hout.
    { rewrite <- Hw. intros [Hr _]%list_elem_of_filter.
      by apply (recorded_calm_excluded r). }
    split; [done|]. by intros [_ ?]%list_elem_of_filter.
  - apply series_min_positive.
    + assert (r0 ∈ filter (λ r, has_wind r) (rows df)) as Hr0
        by (rewrite Hw; left).
      apply list_elem_of_filter in Hr0 as [Hr0 _].
      apply has_wind_positive in Hr0 as (q & Hq & _).
      cbn [omap list_omap]. by rewrite Hq.
    + intros q Hq. apply (speeds_positive (rows df) q).
      rewrite Hw. exact Hq.
Qed.

End Calm.

Section CalmSample.
#[local] Existing Instance Float.exact.

Lemma wind_statistics_exclude_calm_witness :
  ∃ s, visualize_wind true updated_frame = Done s
    ∧ df_wind s = filter (λ r, has_wind r) (rows updated_frame)
    ∧ df_direction s = filter (λ r, valid_direction r) (df_wind s)
    ∧ average_wind_speed s = series_mean (omap wind_speed_kmph (df_wind s))
    ∧ maximum_wind_speed s = series_max (omap wind_speed_kmph (df_wind s))
    ∧ minimum_wind_speed s = series_min (omap wind_speed_kmph (df_wind s))
    ∧ direction_counts s
      = value_counts (omap wind_direction (df_direction s))
    ∧ (∀ r, r ∈ df_wind s → ∃ q, wind_speed_kmph r = Some q ∧ (0 < q)%Q)
    ∧ (∀ r, r ∈ rows updated_frame → recorded_calm r →
         (r ∉ df_wind s) ∧ (r ∉ df_direction s))
    ∧ (∃ m, minimum_wind_speed s = Some m ∧ (0 < m)%Q)
    ∧ (∃ s', visualize_wind true
               (mkDataFrame (columns updated_frame)
                  (filter (λ r, ¬ recorded_calm r) (rows updated_frame)))
             = Done s'
             ∧ df_wind s' = df_wind s
             ∧ df_direction s' = df_direction s
             ∧ average_wind_speed s' = average_wind_speed s
             ∧ maximum_wind_speed s' = maximum_wind_speed s
             ∧ minimum_wind_speed s' = minimum_wind_speed s
             ∧ direction_counts s' = direction_counts s).
Proof.
  eexists. split; [reflexivity|].
  apply (wind_statistics_exclude_calm true updated_frame). reflexivity.
Defined.

(** on the sample frame the statistics are taken over the two windy days:
    the minimum is 10, and the day recorded calm is left out *)
Lemma updated_frame_statistics :
  ∃ s, visualize_wind true updated_frame = Done s
    ∧ dates (df_wind s) = [Samples.jan1 + 16; Samples.jan1 + 17]
    ∧ minimum_wind_speed s = Some (100 # 10)%Q
    ∧ maximum_wind_speed s = Some (140 # 10)%Q
    ∧ Update.make_record no_readings ∈ rows updated_frame
    ∧ wind_speed_kmph (Update.make_record no_readings) = Some (0 # 10)%Q.
Proof.
  eexists. split; [reflexivity|]. split_and!; try (vm_compute; reflexivity).
  unfold updated_frame. cbn [rows]. apply elem_of_app. right.
  do 2 right. left.
Qed.

End CalmSample.

End WindFacts.

(** * Further properties of the code *)

(** ** drop_duplicates and the merge *)

Module StoreExtras.
Import Store StoreClaims StoreFacts MergeFacts SurvivorFacts MoreSamples.

Lemma drop_duplicates_NoDup l : NoDup (dates (drop_duplicates_last l)).
Proof.
  induction l as [|r l IH]; simpl; [constructor|].
  case_decide as Hd; [done|]. unfold dates. rewrite fmap_cons.
  constructor; [|done]. by rewrite (dates_drop_duplicates l (date r)).
Qed.

Lemma drop_duplicates_sublist l : sublist (drop_duplicates_last l) l.
Proof.
  induction l as [|r l IH]; simpl; [constructor|].
  case_decide; by constructor.
Qed.

(** a frame with one row per date is left as it is *)
Lemma drop_duplicates_id l : NoDup (dates l) → drop_duplicates_last l = l.
Proof.
  unfold dates. induction l as [|r l IH]; simpl; [done|].
  rewrite NoDup_cons. intros [Hr Hl]. rewrite decide_False by done.
  f_equal. by apply IH.
Qed.

(** X1 (drop_duplicates, line 182): whatever the frame, the rows kept are
    rows of the frame in their original order, one per date, every date of
    the frame keeps exactly its last row, and dropping again changes
    nothing. *)
Theorem drop_duplicates_keeps_last l :
  sublist (drop_duplicates_last l) l
  ∧ NoDup (dates (drop_duplicates_last l))
  ∧ (∀ d, d ∈ dates l →
       ∃ r, last_with d l = Some r
            ∧ filter (λ q, date q = d) (drop_duplicates_last l) = [r])
  ∧ (∀ d, d ∉ dates l →
       filter (λ q, date q = d) (drop_duplicates_last l) = [])
  ∧ drop_duplicates_last (drop_duplicates_last l) = drop_duplicates_last l.
Proof.
  split_and!.
  - apply drop_duplicates_sublist.
  - apply drop_duplicates_NoDup.
  - intros d Hd. destruct (last_with_is_Some d l Hd) as [r Hr].
    exists r. split; [done|].
    rewrite <- last_with_drop_duplicates in Hr.
    apply last_with_elem_of in Hr as Hr'. destruct Hr' as [Hin E].
    by apply filter_unique; [apply drop_duplicates_NoDup|..].
  - intros d Hd. apply filter_absent. by rewrite dates_drop_duplicates.
  - apply drop_duplicates_id, drop_duplicates_NoDup.
Qed.

(** X2 (merge, lines 178-182): under any sort that meets the contract, the
    merge loses no date and invents none: the dates of the result are those
    of the frame and the batch together, and every row of the result is a
    row of the frame or of the batch. *)
Theorem merge_dates_union sort_values D B :
  sort_contract sort_values →
  (∀ d, d ∈ dates (merge sort_values D B) ↔ d ∈ dates D ∨ d ∈ dates B)
  ∧ (∀ r, r ∈ merge sort_values D B → r ∈ D ∨ r ∈ B)
  ∧ (length (merge sort_values D B) ≤ length D + length B)%nat.
Proof.
  intros Hc. split_and!.
  - intros d. rewrite (merge_dates _ Hc). unfold dates.
    by rewrite fmap_app, elem_of_app.
  - intros r Hr. apply (merge_subseteq _ Hc) in Hr.
    by apply elem_of_app in Hr.
  - unfold merge, concat.
    rewrite (sublist_length _ _ (drop_duplicates_sublist _)).
    by rewrite (proj1 (Hc _)), length_app.
Qed.

Lemma merge_dates_union_witness :
  (∀ d, d ∈ dates (merge Stable.sort_values Samples.D16 Samples.B3)
        ↔ d ∈ dates Samples.D16 ∨ d ∈ dates Samples.B3)
  ∧ (∀ r, r ∈ merge Stable.sort_values Samples.D16 Samples.B3 →
          r ∈ Samples.D16 ∨ r ∈ Samples.B3)
  ∧ (length (merge Stable.sort_values Samples.D16 Samples.B3)
     ≤ length Samples.D16 + length Samples.B3)%nat.
Proof.
  exact (merge_dates_union Stable.sort_values Samples.D16 Samples.B3
           stable_sort_contract).
Defined.

Lemma merge_distinct sort_values D B :
  sort_contract sort_values → NoDup (dates (D ++ B)) →
  merge sort_values D B = sort_values (D ++ B).
Proof.
  intros Hc Hnd. unfold merge, concat. apply drop_duplicates_id.
  unfold dates. by rewrite (proj1 (Hc _)).
Qed.

(** X3 (merge on distinct dates): when no date occurs twice in the frame
    and the batch together, which is what the date window of the update
    gives on a frame with one row per date, nothing is dropped (the result
    is the rows of both in date order) and the result is the same for every
    sort that meets the contract, stable or not. *)
Theorem merge_distinct_dates sort_values sort_values' D B :
  sort_contract sort_values → sort_contract sort_values' →
  NoDup (dates (D ++ B)) →
  merge sort_values D B ≡ₚ D ++ B
  ∧ length (merge sort_values D B) = (length D + length B)%nat
  ∧ merge sort_values' D B = merge sort_values D B.
Proof.
  intros Hc Hc' Hnd.
  assert (merge sort_values D B ≡ₚ D ++ B) as Hp
    by (rewrite merge_distinct by done; apply Hc).
  assert (merge sort_values' D B ≡ₚ D ++ B) as Hp'
    by (rewrite merge_distinct by done; apply Hc').
  split_and!; [done|by rewrite Hp, length_app|].
  apply strict_ext; [by apply merge_strict..|].
  intros x. by rewrite Hp, Hp'.
Qed.

(** stdpp's merge sort on dates is another sort that meets the contract *)
Lemma merge_sort_contract : sort_contract (merge_sort date_le).
Proof.
  intros l. split; [apply merge_sort_Permutation|].
  apply StronglySorted_merge_sort.
  - intros x y z. unfold date_le. lia.
  - intros x y. unfold date_le. lia.
Qed.

Lemma merge_distinct_dates_witness :
  merge Stable.sort_values Samples.D16 B_new ≡ₚ Samples.D16 ++ B_new
  ∧ length (merge Stable.sort_values Samples.D16 B_new)
    = (length Samples.D16 + length B_new)%nat
  ∧ merge (merge_sort date_le) Samples.D16 B_new
    = merge Stable.sort_values Samples.D16 B_new.
Proof.
  apply (merge_distinct_dates Stable.sort_values (merge_sort date_le)
           Samples.D16 B_new).
  - exact stable_sort_contract.
  - exact merge_sort_contract.
  - apply (bool_decide_unpack _). vm_compute. exact I.
Defined.

(** a frame in strictly ascending date order comes back from any sort as
    it is *)
Lemma sort_strict_id sort_values D :
  sort_contract sort_values → StronglySorted date_lt D → sort_values D = D.
Proof.
  intros Hc HD. destruct (Hc D) as [Hp Hs].
  assert (NoDup (dates D)) as Hnd by (by apply strict_NoDup, strict_dates).
  apply strict_ext; [|done|intros x; by rewrite Hp].
  rewrite <- (drop_duplicates_id (sort_values D)).
  - by apply drop_duplicates_strict.
  - unfold dates. by rewrite Hp.
Qed.

(** X4 (merging nothing): a frame that is in strictly ascending date order,
    as every merged frame is, comes out of a merge with an empty batch
    unchanged, whatever sort is used; so merging and then merging nothing
    is merging once. *)
Theorem merge_nothing sort_values D B :
  sort_contract sort_values →
  (StronglySorted date_lt D → merge sort_values D [] = D)
  ∧ merge sort_values (merge sort_values D B) [] = merge sort_values D B.
Proof.
  intros Hc.
  assert (∀ F, StronglySorted date_lt F → merge sort_values F [] = F) as Hid.
  { intros F HF. unfold merge, concat. rewrite app_nil_r.
    rewrite (sort_strict_id sort_values F Hc HF).
    by apply drop_duplicates_id, strict_NoDup, strict_dates. }
  split; [apply Hid|]. by apply Hid, merge_strict.
Qed.

Lemma merge_nothing_witness :
  (StronglySorted date_lt Samples.D16 →
   merge Stable.sort_values Samples.D16 [] = Samples.D16)
  ∧ merge Stable.sort_values
      (merge Stable.sort_values Samples.D16 Samples.B3) []
    = merge Stable.sort_values Samples.D16 Samples.B3.
Proof.
  exact (merge_nothing Stable.sort_values Samples.D16 Samples.B3
           stable_sort_contract).
Defined.

(** X5 (two batches): when the frame and two batches together have no
    date twice, the batches can be merged in either order with the same
    result, the rows of all three in date order, whatever sort that meets
    the contract is used. *)
Theorem merge_commutes sort_values D B1 B2 :
  sort_contract sort_values →
  NoDup (dates (D ++ B1 ++ B2)) →
  merge sort_values (merge sort_values D B1) B2
  = merge sort_values (merge sort_values D B2) B1
  ∧ merge sort_values (merge sort_values D B1) B2 ≡ₚ D ++ B1 ++ B2.
Proof.
  intros Hc Hnd.
  assert (∀ X Y, NoDup (dates (X ++ Y)) → merge sort_values X Y ≡ₚ X ++ Y)
    as Hm.
  { intros X Y HXY. rewrite merge_distinct by done. apply Hc. }
  assert (NoDup (dates (D ++ B1))) as H1.
  { rewrite app_assoc in Hnd. unfold dates in *.
    rewrite fmap_app in Hnd. by apply NoDup_app in Hnd as [? _]. }
  assert (NoDup (dates (D ++ B2))) as H2.
  { unfold dates in *. rewrite !fmap_app in Hnd. rewrite fmap_app.
    apply NoDup_app in Hnd as (HD & Hdis & HB).
    apply NoDup_app in HB as (_ & _ & HB2).
    apply NoDup_app. split_and!; [done| |done].
    intros d Hd Hd'. apply (Hdis d Hd). apply elem_of_app. by right. }
  assert (merge sort_values (merge sort_values D B1) B2 ≡ₚ D ++ B1 ++ B2)
    as P1.
  { rewrite Hm; [by rewrite (Hm D B1 H1), <- app_assoc|].
    unfold dates. rewrite fmap_app, (Hm D B1 H1), <- fmap_app.
    by rewrite <- app_assoc. }
  assert (merge sort_values (merge sort_values D B2) B1 ≡ₚ D ++ B1 ++ B2)
    as P2.
  { assert (D ++ B1 ++ B2 ≡ₚ (D ++ B2) ++ B1) as Hsw.
    { rewrite <- app_assoc. apply Permutation_app_head, Permutation_app_comm. }
    rewrite Hm; [by rewrite (Hm D B2 H2), Hsw|].
    unfold dates. rewrite fmap_app, (Hm D B2 H2), <- fmap_app.
    unfold dates in Hnd. by rewrite <- Hsw. }
  split; [|done].
  apply strict_ext; [by apply merge_strict..|].
  intros x. by rewrite P1, P2.
Qed.

Lemma merge_commutes_witness :
  merge Stable.sort_values
    (merge Stable.sort_values Samples.D16 Samples.fetched_later) B_new
  = merge Stable.sort_values (merge Stable.sort_values Samples.D16 B_new)
      Samples.fetched_later
  ∧ merge Stable.sort_values
      (merge Stable.sort_values Samples.D16 Samples.fetched_later) B_new
    ≡ₚ Samples.D16 ++ Samples.fetched_later ++ B_new.
Proof.
  apply (merge_commutes Stable.sort_values Samples.D16
           Samples.fetched_later B_new).
  - exact stable_sort_contract.
  - apply (bool_decide_unpack _). vm_compute. exact I.
Defined.

(** X22 (merging a batch again): when the batch has one row per date and
    no date of the frame, which is how the update builds it from an answer
    that gives every day once, merging it a second time changes nothing,
    whatever sort that meets the contract is used. *)
Theorem merge_again sort_values D B :
  sort_contract sort_values →
  fresh_batch D B →
  merge sort_values (merge sort_values D B) B = merge sort_values D B.
Proof. intros Hc Hf. by apply merge_idempotent_fresh. Qed.

Lemma merge_again_witness :
  merge Unstable.sort_values
    (merge Unstable.sort_values Samples.D16 B_new) B_new
  = merge Unstable.sort_values Samples.D16 B_new.
Proof.
  apply (merge_again Unstable.sort_values Samples.D16 B_new).
  - exact unstable_sort_contract.
  - split.
    + apply (bool_decide_unpack _). vm_compute. exact I.
    + intros d Hd Hd'. apply list_elem_of_In in Hd, Hd'.
      vm_compute in Hd, Hd'. intuition congruence.
Defined.

End StoreExtras.

(** ** The streak loop: lengths and the longest streak *)

Module StreakExtras.
Import Store Analyze StreakClaims StreakFacts.

Section Lengths.
Variable predicate : Row → bool.

(** the lengths reported add up to the open run and the rows still to come
    that satisfy the predicate *)
Lemma reported_sum rows : ∀ cur start,
  sum_list (reported predicate cur start rows).*2
  = (cur + length (filter (λ r, predicate r = true) rows))%nat.
Proof.
  induction rows as [|r rows IH]; intros cur start; simpl.
  - destruct cur; simpl; lia.
  - destruct (predicate r) eqn:Hr.
    + rewrite IH, filter_cons_True by done. simpl. lia.
    + rewrite fmap_app, sum_list_with_app, IH, filter_cons_False
        by (by rewrite Hr).
      destruct cur; simpl; lia.
Qed.

(** every reported streak has a start date and at least one day *)
Lemma reported_positive rows : ∀ cur start s,
  ((0 < cur)%nat → is_Some start) →
  s ∈ reported predicate cur start rows → is_Some s.1 ∧ (1 ≤ s.2)%nat.
Proof.
  induction rows as [|r rows IH]; intros cur start s Hstart; simpl.
  - destruct cur; simpl; [by inversion 1|].
    intros ->%list_elem_of_singleton. simpl. split; [apply Hstart|]; lia.
  - destruct (predicate r).
    + apply IH. intros _.
      destruct cur; simpl; [by eexists|apply Hstart; lia].
    + intros [Hs|Hs]%elem_of_app.
      * destruct cur; simpl in Hs; [by inv Hs|].
        apply list_elem_of_singleton in Hs as ->. simpl.
        split; [apply Hstart|]; lia.
      * apply (IH 0%nat start); [lia|done].
Qed.

Lemma max_list_app (l k : list nat) :
  max_list (l ++ k) = Nat.max (max_list l) (max_list k).
Proof. induction l as [|n l IH]; simpl; lia. Qed.

(** the open run is reported with at least its present length *)
Lemma reported_open_le rows : ∀ cur start,
  (cur ≤ max_list (reported predicate cur start rows).*2)%nat.
Proof.
  induction rows as [|r rows IH]; intros cur start; simpl.
  - destruct cur; simpl; lia.
  - destruct (predicate r).
    + etrans; [|apply IH]. lia.
    + rewrite fmap_app, max_list_app. destruct cur; simpl; lia.
Qed.

Lemma fold_max rows : ∀ st,
  (current_streak st ≤ max_streak st)%nat →
  max_streak (fold_left (streak_step predicate) rows st)
  = Nat.max (max_streak st)
      (max_list
         (reported predicate (current_streak st) (streak_start st) rows).*2).
Proof.
  induction rows as [|r rows IH]; intros st Hle; simpl.
  - destruct (current_streak st); simpl; lia.
  - unfold streak_step at 2. destruct (predicate r) eqn:Hr.
    + rewrite IH by (simpl; lia). simpl.
      pose proof (reported_open_le rows (S (current_streak st))
        (if (current_streak st =? 0)%nat then Some (date r)
         else streak_start st)).
      lia.
    + rewrite IH by (simpl; lia). simpl.
      rewrite fmap_app, max_list_app.
      destruct (current_streak st); simpl in *; lia.
Qed.

Lemma max_le_sum (l : list nat) : (max_list l ≤ sum_list l)%nat.
Proof. induction l as [|n l IH]; simpl; lia. Qed.

Lemma max_list_positive (l : list nat) :
  Forall (λ n, (1 ≤ n)%nat) l → max_list l = 0%nat → l = [].
Proof. destruct 1; simpl; [done|lia]. Qed.

Lemma cold_streaks_max year_data :
  (cold_streaks predicate year_data).2
  = max_list (cold_streaks predicate year_data).1.*2.
Proof.
  rewrite cold_streaks_reported. unfold cold_streaks. simpl.
  rewrite fold_max by (simpl; lia). simpl. lia.
Qed.

Lemma cold_streaks_positive year_data :
  Forall (λ s, is_Some s.1 ∧ (1 ≤ s.2)%nat)
    (cold_streaks predicate year_data).1.
Proof.
  rewrite cold_streaks_reported. apply Forall_forall. intros s Hs.
  apply (reported_positive year_data 0%nat None s); [lia|done].
Qed.

Lemma cold_streaks_sum year_data :
  sum_list (cold_streaks predicate year_data).1.*2
  = length (filter (λ r, predicate r = true) year_data).
Proof. rewrite cold_streaks_reported. by rewrite reported_sum. Qed.

(** X6 (longest streak, lines 58-84): the number printed as the longest
    cold streak is the greatest length among the streaks listed; it is 0
    exactly when no streak is listed, which happens exactly when no row of
    the period satisfies the predicate; and it never exceeds the number of
    qualifying rows. *)
Theorem longest_streak year_data :
  (cold_streaks predicate year_data).2
  = max_list (cold_streaks predicate year_data).1.*2
  ∧ ((cold_streaks predicate year_data).2 = 0%nat
     ↔ (cold_streaks predicate year_data).1 = [])
  ∧ ((cold_streaks predicate year_data).1 = []
     ↔ Forall (λ r, predicate r = false) year_data)
  ∧ ((cold_streaks predicate year_data).2
     ≤ length (filter (λ r, predicate r = true) year_data))%nat.
Proof.
  pose proof (cold_streaks_max year_data) as Hmax.
  assert (Forall (λ n, (1 ≤ n)%nat) (cold_streaks predicate year_data).1.*2)
    as Hpos.
  { apply Forall_fmap. eapply Forall_impl; [apply cold_streaks_positive|].
    by intros s [_ Hs]. }
  pose proof (cold_streaks_sum year_data) as Hsum.
  split_and!.
  - exact Hmax.
  - rewrite Hmax. split.
    + intros H0. apply max_list_positive in H0; [|done].
      by apply fmap_nil_inv in H0.
    + by intros ->.
  - split.
    + intros Hnil. rewrite Hnil in Hsum. simpl in Hsum.
      symmetry in Hsum. apply nil_length_inv in Hsum.
      apply Forall_forall. intros r Hr.
      destruct (predicate r) eqn:Hp; [|done].
      assert (r ∈ filter (λ r, predicate r = true) year_data) as Hin
        by (by apply list_elem_of_filter).
      rewrite Hsum in Hin. by inv Hin.
    + intros Hall.
      assert (filter (λ r, predicate r = true) year_data = []) as Hf.
      { clear -Hall. induction Hall as [|r l Hr _ IH]; [done|].
        by rewrite filter_cons_False by (by rewrite Hr). }
      rewrite Hf in Hsum. change (length []) with 0%nat in Hsum.
      pose proof (max_le_sum (cold_streaks predicate year_data).1.*2) as Hle.
      assert (max_list (cold_streaks predicate year_data).1.*2 = 0%nat)
        as H0 by lia.
      apply max_list_positive in H0; [|done]. by apply fmap_nil_inv in H0.
  - rewrite Hmax, <- Hsum. apply max_le_sum.
Qed.

End Lengths.

(** X7 (the January report, lines 53-84): under any sort that returns a
    date-ordered permutation, a year that is listed has a January row in
    the frame; the lengths of the streaks listed for it add up to the
    number of its January rows with a maximum below -5, every streak has a
    start date and at least one day, and the longest streak printed is the
    greatest of these lengths. *)
Theorem january_streak_days sort_values df y ss longest :
  sort_contract sort_values →
  (y, (ss, longest)) ∈ analyze_january_patterns sort_values df →
  (∃ r, r ∈ df ∧ month r = 1 ∧ year r = y)
  ∧ sum_list ss.*2
    = length (filter (λ r, (month r = 1 ∧ year r = y) ∧ max_temp_c r < -5) df)
  ∧ Forall (λ s, is_Some s.1 ∧ (1 ≤ s.2)%nat) ss
  ∧ longest = max_list ss.*2.
Proof.
  intros Hc Hin. unfold analyze_january_patterns in Hin.
  apply list_elem_of_fmap in Hin as (y' & E & Hy).
  pose proof (f_equal fst E) as Ey.
  pose proof (f_equal (λ p, p.2.1) E) as Ess.
  pose proof (f_equal (λ p, p.2.2) E) as El.
  cbn [fst snd] in Ey, Ess, El. subst y' ss longest. clear E.
  set (year_data := sort_values
         (filter (λ r, year r = y) (filter (λ r, month r = 1) df))).
  split_and!.
  - rewrite YearFacts.sorted_Permutation, YearFacts.unique_elem_of in Hy.
    apply list_elem_of_fmap in Hy as (r & -> & Hr).
    apply list_elem_of_filter in Hr as [Hm Hr]. by exists r.
  - rewrite cold_streaks_sum. unfold year_data.
    rewrite (proj1 (Hc _)), !list_filter_filter.
    f_equal. apply list_filter_iff. intros r. unfold cold_max.
    rewrite bool_decide_eq_true. tauto.
  - apply cold_streaks_positive.
  - apply cold_streaks_max.
Qed.

Lemma january_streak_days_witness :
  (∃ r, r ∈ reverse (six_days Samples.jan1) ∧ month r = 1 ∧ year r = 2024)
  ∧ sum_list [(Some Samples.jan1, 3%nat); (Some (Samples.jan1 + 4), 2%nat)].*2
    = length (filter (λ r, (month r = 1 ∧ year r = 2024) ∧ max_temp_c r < -5)
                (reverse (six_days Samples.jan1)))
  ∧ Forall (λ s, is_Some s.1 ∧ (1 ≤ s.2)%nat)
      [(Some Samples.jan1, 3%nat); (Some (Samples.jan1 + 4), 2%nat)]
  ∧ 3%nat
    = max_list
        [(Some Samples.jan1, 3%nat); (Some (Samples.jan1 + 4), 2%nat)].*2.
Proof.
  apply (january_streak_days Stable.sort_values
           (reverse (six_days Samples.jan1)) 2024).
  - exact StoreFacts.stable_sort_contract.
  - vm_compute. left.
Defined.

End StreakExtras.

(** ** The update run: when the file is left alone, and what a rewrite
       brings *)

Module UpdateExtras.
Import Store StoreFacts MergeFacts Update UpdateClaims UpdateFacts.

Lemma filter_none {A} (P : A → Prop) `{!∀ x, Decision (P x)} (l : list A) :
  (∀ x, x ∈ l → ¬ P x) → filter P l = [].
Proof.
  induction l as [|a l IH]; intros Hl; [done|].
  rewrite filter_cons_False by (apply Hl; left).
  apply IH. intros x Hx. apply Hl. by right.
Qed.

Section Leaves.
Context `{!Float.Arithmetic}.

Lemma new_records_nil today fetch_month_data start_date months :
  (∀ y m days day, fetch_month_data y m = Some days → day ∈ days →
     ¬ (start_date ≤ day_date day ≤ today)) →
  new_records today fetch_month_data start_date months = [].
Proof.
  intros Hout. unfold new_records.
  induction months as [|ym months IH]; [done|].
  cbn [flat_map]. rewrite IH, app_nil_r.
  destruct (fetch_month_data ym.1 ym.2) as [days|] eqn:Hf; [|done].
  rewrite filter_none; [done|].
  intros day Hday Hwin. apply (Hout _ _ _ _ Hf Hday). lia.
Qed.

Lemma new_records_fetched today fetch_month_data start_date months r :
  r ∈ new_records today fetch_month_data start_date months →
  ∃ ym days day,
    ym ∈ months ∧ fetch_month_data ym.1 ym.2 = Some days ∧ day ∈ days
    ∧ r = make_record day ∧ start_date ≤ day_date day ≤ today.
Proof.
  unfold new_records. rewrite list_elem_of_In, in_flat_map.
  intros (ym & Hym & Hr). apply list_elem_of_In in Hr, Hym.
  destruct (fetch_month_data ym.1 ym.2) as [days|] eqn:Hf; [|by inv Hr].
  apply list_elem_of_fmap in Hr as (day & -> & Hday).
  apply list_elem_of_filter in Hday as [Hwin Hday].
  exists ym, days, day. split_and!; try done; lia.
Qed.

(** X8 (runs that leave the file alone, lines 50-63 and 129-171): a frame
    whose last date is today or later ends the run as up to date, before
    any request; a frame behind today ends it as no new data when the API
    fails for every month or answers with days outside the window only; and
    a run that reaches the merge has been given, by the API, at least one
    day after the last stored date and not after today. *)
Theorem update_leaves_file sort_values today fetch_month_data
    df_existing last_date :
  max_date df_existing = Some last_date →
  (today ≤ last_date →
   update sort_values today fetch_month_data (Some df_existing) = UpToDate)
  ∧ (last_date < today →
     (∀ y m days day, fetch_month_data y m = Some days → day ∈ days →
        ¬ (last_date < day_date day ≤ today)) →
     update sort_values today fetch_month_data (Some df_existing)
     = NoNewData)
  ∧ (∀ df_new df_combined,
       update sort_values today fetch_month_data (Some df_existing)
       = Updated df_new df_combined →
       ∃ y m days day,
         fetch_month_data y m = Some days ∧ day ∈ days
         ∧ last_date < day_date day ≤ today).
Proof.
  intros Hmax. split_and!.
  - intros Hle. unfold update. rewrite Hmax.
    by rewrite (proj2 (Z.ltb_lt _ _)) by lia.
  - intros Hlt Hout. unfold update. rewrite Hmax.
    rewrite (proj2 (Z.ltb_ge _ _)) by lia.
    rewrite new_records_nil; [done|].
    intros y m days day Hf Hday Hwin. apply (Hout _ _ _ _ Hf Hday). lia.
  - intros df_new df_combined Hrun.
    apply update_Updated in Hrun
      as (df & last & [= <-] & Hmax' & Htoday & Hnew & Hne & _).
    rewrite Hmax in Hmax'. injection Hmax' as <-.
    destruct df_new as [|r rs]; [done|].
    assert (r ∈ r :: rs) as Hr by left. rewrite Hnew in Hr.
    apply new_records_fetched in Hr
      as (ym & days & day & _ & Hf & Hday & _ & Hwin).
    exists ym.1, ym.2, days, day. split_and!; try done; lia.
Qed.

End Leaves.

Section LeavesSample.
#[local] Existing Instance Float.exact.

Lemma update_leaves_file_witness :
  (Samples.jan1 + 20 ≤ Samples.jan1 + 17 →
   update Stable.sort_values (Samples.jan1 + 20) january_api (Some MoreSamples.stored18)
   = UpToDate)
  ∧ (Samples.jan1 + 17 < Samples.jan1 + 20 →
     (∀ y m days day, january_api y m = Some days → day ∈ days →
        ¬ (Samples.jan1 + 17 < day_date day ≤ Samples.jan1 + 20)) →
     update Stable.sort_values (Samples.jan1 + 20) january_api (Some MoreSamples.stored18)
     = NoNewData)
  ∧ (∀ df_new df_combined,
       update Stable.sort_values (Samples.jan1 + 20) january_api (Some MoreSamples.stored18)
       = Updated df_new df_combined →
       ∃ y m days day,
         january_api y m = Some days ∧ day ∈ days
         ∧ Samples.jan1 + 17 < day_date day ≤ Samples.jan1 + 20).
Proof.
  apply (update_leaves_file Stable.sort_values (Samples.jan1 + 20) january_api
           MoreSamples.stored18 (Samples.jan1 + 17)).
  vm_compute. reflexivity.
Defined.

End LeavesSample.

Lemma max_date_elem_of df m : max_date df = Some m → m ∈ dates df.
Proof.
  unfold max_date. destruct (dates df) as [|d ds]; [done|].
  intros [= <-]. revert d. induction ds as [|a ds IH]; intros d; [left|].
  cbn [foldr].
  destruct (Z.max_spec a (foldr Z.max d ds)) as [[_ ->]|[_ ->]].
  - specialize (IH d). apply elem_of_cons in IH as [->|IH].
    + left.
    + right. by right.
  - right. left.
Qed.

Lemma max_date_is_Some df r : r ∈ df → is_Some (max_date df).
Proof.
  unfold max_date, dates. destruct df; [by inversion 1|]. by eexists.
Qed.

Section Advances.
Context `{!Float.Arithmetic}.

(** X9 (a rewrite advances the file, lines 50-59 and 174-182): under any
    sort that returns a date-ordered permutation, the frame written by a
    run that reaches the merge has a last date later than the stored
    frame's and not later than today, and that last date is the date of a
    fetched record; when it is today, a second run on the written frame ends
    as up to date. *)
Theorem update_advances sort_values today fetch_month_data
    df_existing df_new df_combined last_date :
  sort_contract sort_values →
  max_date df_existing = Some last_date →
  update sort_values today fetch_month_data (Some df_existing)
  = Updated df_new df_combined →
  ∃ m, max_date df_combined = Some m
    ∧ last_date < m ≤ today
    ∧ m ∈ dates df_new
    ∧ (m = today →
       update sort_values today fetch_month_data (Some df_combined)
       = UpToDate).
Proof.
  intros Hc Hmax Hrun.
  apply update_Updated in Hrun
    as (df & last & [= <-] & Hmax' & Htoday & Hnew & Hne & ->).
  rewrite Hmax in Hmax'. injection Hmax' as <-.
  assert (∀ r, r ∈ df_new → last_date < date r ≤ today) as Hwin.
  { intros r Hr. rewrite Hnew in Hr. apply new_records_window in Hr. lia. }
  destruct df_new as [|r0 rs] eqn:Edf; [done|]. rewrite <- Edf in *.
  assert (r0 ∈ df_new) as Hr0 by (rewrite Edf; left).
  assert (date r0 ∈ dates (merge sort_values df_existing df_new)) as Hd0.
  { apply (merge_dates _ Hc). unfold dates.
    rewrite fmap_app, elem_of_app. right. by apply list_elem_of_fmap_2. }
  unfold dates in Hd0. apply list_elem_of_fmap in Hd0 as (q0 & E0 & Hq0).
  destruct (max_date_is_Some _ _ Hq0) as [m Hm].
  pose proof (max_date_ge _ _ _ Hm Hq0) as Hge.
  pose proof (max_date_elem_of _ _ Hm) as Hin.
  apply (merge_dates _ Hc) in Hin. unfold dates in Hin.
  rewrite fmap_app, elem_of_app in Hin.
  specialize (Hwin r0 Hr0) as Hw0.
  assert (m ∈ dates df_new ∧ last_date < m ≤ today) as [Hmn Hmw].
  { destruct Hin as [Hin|Hin].
    - apply list_elem_of_fmap in Hin as (q & -> & Hq).
      pose proof (max_date_ge _ _ _ Hmax Hq). lia.
    - split; [done|].
      apply list_elem_of_fmap in Hin as (q & -> & Hq). by apply Hwin. }
  exists m. split_and!; try done; try lia.
  intros ->. unfold update. rewrite Hm.
  by rewrite (proj2 (Z.ltb_lt _ _)) by lia.
Qed.

End Advances.

Section AdvancesSample.
#[local] Existing Instance Float.exact.

Lemma update_advances_witness :
  ∃ m, max_date (merge Stable.sort_values Samples.D16
                   (make_record <$> [three_readings; one_reading])) = Some m
    ∧ Samples.jan1 + 15 < m ≤ Samples.jan1 + 17
    ∧ m ∈ dates (make_record <$> [three_readings; one_reading])
    ∧ (m = Samples.jan1 + 17 →
       update Stable.sort_values (Samples.jan1 + 17) january_api
         (Some (merge Stable.sort_values Samples.D16
                  (make_record <$> [three_readings; one_reading])))
       = UpToDate).
Proof.
  apply (update_advances Stable.sort_values (Samples.jan1 + 17) january_api
           Samples.D16 (make_record <$> [three_readings; one_reading])).
  - exact stable_sort_contract.
  - vm_compute. reflexivity.
  - vm_compute. reflexivity.
Defined.

End AdvancesSample.

End UpdateExtras.

(** ** The cold-day analyses: totals, the coldest day, the breakdown by
       month, the most extreme days *)

Module ColdExtras.
Import Analyze ColdDetails YearFacts.

Section Counting.
Context {A : Type}.

Lemma count_disjoint (P Q : A → Prop) `{!∀ x, Decision (P x)}
    `{!∀ x, Decision (Q x)} (l : list A) :
  (∀ x, P x → Q x → False) →
  (length (filter P l) + length (filter Q l))%nat
  = length (filter (λ x, P x ∨ Q x) l).
Proof.
  intros Hdis. induction l as [|a l IH]; [done|].
  rewrite !filter_cons.
  destruct (decide (P a)) as [HP|HP], (decide (Q a)) as [HQ|HQ].
  - by destruct (Hdis a).
  - rewrite decide_True by tauto. simpl. lia.
  - rewrite decide_True by tauto. simpl. lia.
  - rewrite decide_False by tauto. done.
Qed.

Lemma filter_all (P : A → Prop) `{!∀ x, Decision (P x)} (l : list A) :
  (∀ x, x ∈ l → P x) → filter P l = l.
Proof.
  induction l as [|a l IH]; intros Hl; [done|].
  rewrite filter_cons_True by (apply Hl; left).
  f_equal. apply IH. intros x Hx. apply Hl. by right.
Qed.

(** the groups of a frame by key, taken over keys without repetition,
    have as many rows together as the frame has rows with one of the keys *)
Lemma sum_counts (key : A → Z) (ys : list Z) (l : list A) :
  NoDup ys →
  sum_list ((λ y, length (filter (λ x, key x = y) l)) <$> ys)
  = length (filter (λ x, key x ∈ ys) l).
Proof.
  induction 1 as [|y ys Hy Hnd IH].
  - symmetry. apply length_zero_iff_nil, UpdateExtras.filter_none.
    intros x _ Hx. by inv Hx.
  - rewrite fmap_cons. cbn [sum_list_with id].
    rewrite IH, count_disjoint by (intros x <- Hx; done).
    f_equal. apply list_filter_iff. intros x. rewrite elem_of_cons.
    split; intros [?|?]; auto.
Qed.

Lemma count_fmap (key : A → Z) (l : list A) y :
  length (filter (λ k, k = y) (key <$> l))
  = length (filter (λ x, key x = y) l).
Proof.
  induction l as [|a l IH]; [done|].
  rewrite fmap_cons, !filter_cons.
  destruct (decide (key a = y)); simpl; by rewrite IH.
Qed.

End Counting.

(** the total line of a cold-day analysis counts the qualifying rows *)
Lemma total_count (P : Row → Prop) `{!∀ r, Decision (P r)} df :
  sum_list
    ((λ y, (y, series_get (groupby_size (year <$> filter P df)) y 0))
     <$> Py.sorted (Py.unique (year <$> df))).*2
  = length (filter P df).
Proof.
  rewrite <- list_fmap_compose.
  rewrite (list_fmap_ext _
    (λ y, length (filter (λ r, year r = y) (filter P df)))).
  2:{ intros i y _. simpl. by rewrite series_get_count, count_fmap. }
  rewrite sum_counts.
  - rewrite filter_all; [done|]. intros r Hr.
    apply all_years_elem_of, list_elem_of_fmap_2.
    by apply list_elem_of_filter in Hr as [_ Hr].
  - apply StoreFacts.strict_NoDup, all_years_strict.
Qed.

(** X10 (the total line, analyze_cold_days.py lines 36-44 and
    analyze_extreme_cold_days.py lines 38-46): the total printed under the
    per-year table, which the loop adds up from the per-year counts, is the
    number of rows of the frame with a minimum (in the other script, a
    maximum) below -10. *)
Theorem total_counts_rows df :
  total (analyze_cold_days df)
  = length (filter (λ r, min_temp_c r < -10) df)
  ∧ total (analyze_extreme_cold_days df)
    = length (filter (λ r, max_temp_c r < -10) df)
  ∧ (total (analyze_cold_days df) ≤ length df)%nat.
Proof.
  assert (total (analyze_cold_days df)
          = length (filter (λ r, min_temp_c r < -10) df)) as E
    by apply (total_count (λ r, min_temp_c r < -10)).
  split_and!; [done| |].
  - apply (total_count (λ r, max_temp_c r < -10)).
  - rewrite E. apply length_filter.
Qed.

(** *** The coldest day *)

Lemma int_min_spec cells t :
  int_min cells = Some t → t ∈ cells ∧ ∀ c, c ∈ cells → t ≤ c.
Proof.
  unfold int_min. destruct cells as [|c cs]; [done|]. intros [= <-].
  revert c. induction cs as [|a cs IH]; intros c.
  - simpl. split; [left|]. by intros c' ->%list_elem_of_singleton.
  - cbn [foldr]. destruct (IH c) as [Hin Hle]. split.
    + destruct (Z.min_spec a (foldr Z.min c cs)) as [[_ ->]|[_ ->]].
      * right. left.
      * apply elem_of_cons in Hin as [->|Hin]; [left|right; by right].
    + intros c' Hc'.
      assert (c' = a ∨ c' ∈ c :: cs) as [->|Hc]
        by (rewrite !elem_of_cons in Hc'; rewrite elem_of_cons; tauto).
      * lia.
      * specialize (Hle c' Hc). lia.
Qed.

Lemma head_filter_split {A} (P : A → Prop) `{!∀ x, Decision (P x)}
    (l : list A) x :
  head (filter P l) = Some x →
  ∃ l1 l2, l = l1 ++ x :: l2 ∧ P x ∧ Forall (λ y, ¬ P y) l1.
Proof.
  induction l as [|a l IH]; [done|].
  rewrite filter_cons. destruct (decide (P a)) as [Ha|Ha].
  - intros [= ->]. by exists [], l.
  - intros (l1 & l2 & -> & Hx & Hl1)%IH.
    exists (a :: l1), l2. split_and!; [done..|by constructor].
Qed.

Lemma labelled_lookup df i lr :
  labelled df !! i = Some lr ↔ lr.1 = i ∧ df !! i = Some lr.2.
Proof.
  unfold labelled. rewrite list_lookup_imap. destruct lr as [j r].
  destruct (df !! i) as [q|]; simpl.
  - split; [by intros [= <- <-]|by intros [<- [= <-]]].
  - split; [done|by intros [_ ?]].
Qed.

Lemma labelled_elem_of df lr : lr ∈ labelled df ↔ df !! lr.1 = Some lr.2.
Proof.
  rewrite list_elem_of_lookup. split.
  - intros (i & Hi). by apply labelled_lookup in Hi as [<- ?].
  - intros H. exists lr.1. by apply labelled_lookup.
Qed.

Lemma labelled_rows df : (labelled df).*2 = df.
Proof.
  apply list_eq. intros i. rewrite list_lookup_fmap.
  unfold labelled. rewrite list_lookup_imap.
  by destruct (df !! i).
Qed.

Lemma filter_rows (P : Row → Prop) `{!∀ r, Decision (P r)}
    (frame : list (nat * Row)) :
  (filter (λ lr, P lr.2) frame).*2 = filter P frame.*2.
Proof.
  induction frame as [|[i r] frame IH]; [done|].
  rewrite fmap_cons, !filter_cons. cbn [snd].
  destruct (decide (P r)); [rewrite fmap_cons; cbn [snd]|]; by rewrite IH.
Qed.

Section Column.
Variable column : Row → Z.

(** X11 (the coldest day, analyze_cold_days.py lines 49-53 and
    analyze_extreme_cold_days.py lines 51-55): when the frame has a cold
    day, the temperature printed as the coldest is below -10 and is the
    least cell of the whole frame, not only of the cold days; the date
    printed beside it is the date of the first row of the file that holds
    it, which the label kept by the selection finds again. *)
Theorem coldest_day df d :
  additional_statistics column df = Some d →
  ∃ t label r,
    coldest d = Some t
    ∧ coldest_date d = Some (date r)
    ∧ df !! label = Some r
    ∧ column r = t
    ∧ t < -10
    ∧ (∀ q, q ∈ df → t ≤ column q)
    ∧ (∀ i q, (i < label)%nat → df !! i = Some q → t < column q).
Proof.
  unfold additional_statistics.
  set (cold_days := filter (λ lr, column lr.2 < -10) (labelled df)).
  case_bool_decide as Hlen; [|done]. intros [= <-]. simpl. unfold idxmin.
  destruct (int_min ((column ∘ snd) <$> cold_days)) as [t|] eqn:Hmin.
  2:{ unfold int_min in Hmin.
      destruct cold_days; [simpl in Hlen; lia|done]. }
  apply int_min_spec in Hmin as [Hin Hle].
  apply list_elem_of_fmap in Hin as ([l0 r0] & Et & Hr0). simpl in Et.
  assert (t < -10) as Hcold.
  { apply list_elem_of_filter in Hr0 as [Hc _]. simpl in Hc. lia. }
  assert (∀ q, q ∈ df → t ≤ column q) as Hglobal.
  { intros q Hq. destruct (decide (column q < -10)) as [Hc|Hc]; [|lia].
    apply list_elem_of_lookup in Hq as [i Hi].
    apply (Hle (column q)).
    apply (list_elem_of_fmap_2' _ _ (i, q)); [|done].
    apply list_elem_of_filter. split; [done|].
    by apply labelled_elem_of. }
  assert (filter (λ lr, column lr.2 = t) cold_days
          = filter (λ lr, column lr.2 = t) (labelled df)) as Efirst.
  { unfold cold_days. rewrite list_filter_filter.
    apply list_filter_iff. intros lr. lia. }
  simpl. rewrite Efirst.
  destruct (head (filter (λ lr, column lr.2 = t) (labelled df)))
    as [[label r]|] eqn:Hhead.
  2:{ apply head_None in Hhead.
      assert ((l0, r0) ∈ filter (λ lr, column lr.2 = t) (labelled df)) as Hx.
      { apply list_elem_of_filter. split; [done|].
        by apply list_elem_of_filter in Hr0 as [_ ?]. }
      rewrite Hhead in Hx. by inv Hx. }
  apply head_filter_split in Hhead as (l1 & l2 & Esplit & Hr & Hl1).
  simpl in Hr.
  assert (labelled df !! length l1 = Some (label, r)) as Hpos
    by (rewrite Esplit; by apply list_lookup_middle).
  apply labelled_lookup in Hpos as [Elabel Hlookup]. simpl in *.
  subst label.
  exists t, (length l1), r. split_and!; try done.
  - unfold loc_date.
    assert ((length l1, r) ∈ cold_days) as Hmem.
    { apply list_elem_of_filter. split; [simpl; lia|].
      by apply labelled_elem_of. }
    destruct (head (filter (λ lr, lr.1 = length l1) cold_days))
      as [[label' r']|] eqn:Hloc.
    + apply head_Some_elem_of, list_elem_of_filter in Hloc as [El Hr'].
      simpl in El. subst label'.
      apply list_elem_of_filter in Hr' as [_ Hr'].
      apply labelled_elem_of in Hr'. simpl in Hr'.
      rewrite Hlookup in Hr'. by injection Hr' as <-.
    + apply head_None in Hloc.
      assert ((length l1, r) ∈ filter (λ lr, lr.1 = length l1) cold_days)
        as Hx by (by apply list_elem_of_filter).
      rewrite Hloc in Hx. by inv Hx.
  - intros i q Hi Hq.
    assert (labelled df !! i = Some (i, q)) as Hiq
      by (by apply labelled_lookup).
    rewrite Esplit, lookup_app_l in Hiq by lia.
    apply list_elem_of_lookup_2 in Hiq.
    rewrite Forall_forall in Hl1. specialize (Hl1 _ Hiq). simpl in Hl1.
    assert (q ∈ df) as Hqdf by (by eapply list_elem_of_lookup_2).
    specialize (Hglobal q Hqdf). lia.
Qed.

(** *** The breakdown by month *)

Lemma cold_days_rows df :
  (filter (λ lr, column lr.2 < -10) (labelled df)).*2
  = filter (λ r, column r < -10) df.
Proof.
  pose proof (filter_rows (λ r, column r < -10) (labelled df)) as E.
  cbv beta in E. by rewrite E, labelled_rows.
Qed.

Lemma index_elem_of (keys : list Z) m :
  m ∈ Py.sorted (map_to_list (groupby_size keys)).*1 ↔ m ∈ keys.
Proof.
  rewrite sorted_Permutation, list_elem_of_fmap. split.
  - intros ([m' n] & -> & Hmn). apply elem_of_map_to_list in Hmn.
    rewrite groupby_size_lookup in Hmn. simpl. by case_decide.
  - intros Hm. exists (m, length (filter (λ x, x = m) keys)).
    split; [done|]. apply elem_of_map_to_list.
    rewrite groupby_size_lookup. by rewrite decide_True.
Qed.

Lemma index_strict (keys : list Z) :
  StronglySorted Z.lt (Py.sorted (map_to_list (groupby_size keys)).*1).
Proof.
  apply ascending_NoDup_strict; [apply sorted_ascending|].
  rewrite sorted_Permutation. apply NoDup_fst_map_to_list.
Qed.

(** X12 (the breakdown by month, analyze_cold_days.py lines 56-66 and
    analyze_extreme_cold_days.py lines 58-68): the months are listed in
    ascending order without repetition; a line (month, count) is printed
    exactly for the months that have a cold day, with the number of cold
    days of that month over all years, so no line shows a count of 0,
    unlike the per-year table; and the counts add up to the number of cold
    days. *)
Theorem month_breakdown df d :
  additional_statistics column df = Some d →
  StronglySorted Z.lt (by_month d).*1
  ∧ (∀ m n, (m, n) ∈ by_month d ↔
       (1 ≤ n)%nat
       ∧ n = length (filter (λ r, month r = m ∧ column r < -10) df))
  ∧ sum_list (by_month d).*2 = length (filter (λ r, column r < -10) df).
Proof.
  unfold additional_statistics.
  set (cold_days := filter (λ lr, column lr.2 < -10) (labelled df)).
  case_bool_decide as Hlen; [|done]. intros [= <-]. cbn [by_month].
  assert ((month ∘ snd) <$> cold_days
          = month <$> filter (λ r, column r < -10) df) as Ekeys
    by (unfold cold_days; by rewrite list_fmap_compose, cold_days_rows).
  rewrite Ekeys. clear Hlen Ekeys cold_days.
  set (keys := month <$> filter (λ r, column r < -10) df).
  assert (∀ m, series_get (groupby_size keys) m 0
               = length (filter (λ r, month r = m ∧ column r < -10) df))
    as Ecount.
  { intros m. unfold keys.
    by rewrite series_get_count, count_fmap, list_filter_filter. }
  split_and!.
  - rewrite fst_fmap_pair. apply index_strict.
  - intros m n. rewrite list_elem_of_fmap. split.
    + intros (m' & [= <- ->] & Hm). split; [|apply Ecount].
      rewrite Ecount. apply (proj1 (index_elem_of _ _)) in Hm.
      unfold keys in Hm.
      apply list_elem_of_fmap in Hm as (r & -> & Hr).
      apply list_elem_of_filter in Hr as [Hc Hr].
      assert (r ∈ filter (λ q, month q = month r ∧ column q < -10) df)
        as Hin by (by apply list_elem_of_filter).
      apply list_elem_of_lookup in Hin as [i Hi].
      apply lookup_lt_Some in Hi. lia.
    + intros [Hn ->]. exists m. split; [by rewrite Ecount|].
      apply index_elem_of. unfold keys.
      destruct (filter (λ r, month r = m ∧ column r < -10) df)
        as [|r rs] eqn:Hf; [simpl in Hn; lia|].
      assert (r ∈ filter (λ r, month r = m ∧ column r < -10) df) as Hr
        by (rewrite Hf; left).
      apply list_elem_of_filter in Hr as [[<- Hc] Hr].
      apply list_elem_of_fmap_2. by apply list_elem_of_filter.
  - rewrite <- list_fmap_compose.
    rewrite (list_fmap_ext _
      (λ m, length (filter (λ r, month r = m)
                      (filter (λ r, column r < -10) df)))).
    2:{ intros i m _. simpl. rewrite Ecount.
        by rewrite list_filter_filter. }
    rewrite sum_counts by (apply StoreFacts.strict_NoDup, index_strict).
    rewrite filter_all; [done|]. intros r Hr.
    apply index_elem_of. by apply list_elem_of_fmap_2.
Qed.

End Column.

(** *** The most extreme days *)

(** stdpp's merge sort on a column is a sort that meets the contract *)
Lemma merge_sort_contract_by (column : Row → Z) :
  sort_contract_by column (merge_sort (column_le column)).
Proof.
  intros l. split; [apply merge_sort_Permutation|].
  apply StronglySorted_merge_sort.
  - intros x y z. unfold column_le. lia.
  - intros x y. unfold column_le. lia.
Qed.

(** X13 (the most extreme days, analyze_extreme_cold_days.py lines 71-75):
    under any sort by max_temp_c, stable or not, the list has ten rows, or
    all extreme days when there are fewer; it ascends in max_temp_c; the
    extreme days left out are at least as warm as every day listed; and the
    first day listed has the least maximum of the whole frame. *)
Theorem most_extreme_coldest sort_values df :
  sort_contract_by max_temp_c sort_values →
  length (most_extreme sort_values df)
  = Nat.min 10 (length (filter (λ r, max_temp_c r < -10) df))
  ∧ StronglySorted (column_le max_temp_c)
      (most_extreme sort_values df)
  ∧ (∃ rest,
       most_extreme sort_values df ++ rest
       ≡ₚ filter (λ r, max_temp_c r < -10) df
       ∧ ∀ a b, a ∈ most_extreme sort_values df → b ∈ rest →
           max_temp_c a ≤ max_temp_c b)
  ∧ (∀ r, head (most_extreme sort_values df) = Some r →
       max_temp_c r < -10 ∧ ∀ q, q ∈ df → max_temp_c r ≤ max_temp_c q).
Proof.
  intros Hc. unfold most_extreme.
  set (extreme_cold_days := filter (λ r, max_temp_c r < -10) df).
  destruct (Hc extreme_cold_days) as [Hp Hs].
  rewrite <- (take_drop 10 (sort_values extreme_cold_days)) in Hs.
  split_and!.
  - by rewrite length_take, Hp.
  - by eapply StronglySorted_app_1_l.
  - exists (drop 10 (sort_values extreme_cold_days)). split.
    + by rewrite take_drop.
    + intros a b Ha Hb.
      by apply (StronglySorted_app_1_elem_of _ _ _ _ _ Hs).
  - intros r Hr.
    assert (r ∈ sort_values extreme_cold_days) as Hin.
    { apply head_Some_elem_of in Hr.
      rewrite <- (take_drop 10 (sort_values extreme_cold_days)).
      apply elem_of_app. by left. }
    rewrite Hp in Hin. apply list_elem_of_filter in Hin as [Hcold _].
    split; [done|]. intros q Hq.
    destruct (decide (max_temp_c q < -10)) as [Hq'|Hq']; [|lia].
    assert (q ∈ sort_values extreme_cold_days) as Hsq
      by (rewrite Hp; by apply list_elem_of_filter).
    rewrite take_drop in Hs.
    destruct (sort_values extreme_cold_days) as [|r' tl]; [done|].
    simpl in Hr. injection Hr as ->.
    apply StronglySorted_inv in Hs as [_ Hall].
    apply elem_of_cons in Hsq as [->|Hsq]; [lia|].
    rewrite Forall_forall in Hall. by apply Hall.
Qed.

Lemma most_extreme_coldest_witness :
  length (most_extreme (merge_sort (column_le max_temp_c))
            twelve_extreme)
  = Nat.min 10 (length (filter (λ r, max_temp_c r < -10) twelve_extreme))
  ∧ StronglySorted (column_le max_temp_c)
      (most_extreme (merge_sort (column_le max_temp_c))
         twelve_extreme)
  ∧ (∃ rest,
       most_extreme (merge_sort (column_le max_temp_c))
         twelve_extreme ++ rest
       ≡ₚ filter (λ r, max_temp_c r < -10) twelve_extreme
       ∧ ∀ a b,
           a ∈ most_extreme (merge_sort (column_le max_temp_c))
                 twelve_extreme →
           b ∈ rest → max_temp_c a ≤ max_temp_c b)
  ∧ (∀ r, head (most_extreme
                  (merge_sort (column_le max_temp_c))
                  twelve_extreme) = Some r →
       max_temp_c r < -10
       ∧ ∀ q, q ∈ twelve_extreme → max_temp_c r ≤ max_temp_c q).
Proof.
  exact (most_extreme_coldest _ twelve_extreme
           (merge_sort_contract_by max_temp_c)).
Defined.

(** on the twelve sample days the ten coldest are listed, coldest first *)
Lemma most_extreme_twelve :
  max_temp_c
  <$> most_extreme (merge_sort (column_le max_temp_c))
        twelve_extreme
  = [-22; -21; -20; -19; -18; -17; -16; -15; -14; -13].
Proof. vm_compute. reflexivity. Qed.

Lemma coldest_day_witness :
  ∃ t label r,
    coldest six_years_details = Some t
    ∧ coldest_date six_years_details = Some (date r)
    ∧ AnalyzeClaims.six_years !! label = Some r
    ∧ min_temp_c r = t
    ∧ t < -10
    ∧ (∀ q, q ∈ AnalyzeClaims.six_years → t ≤ min_temp_c q)
    ∧ (∀ i q, (i < label)%nat → AnalyzeClaims.six_years !! i = Some q →
         t < min_temp_c q).
Proof.
  apply (coldest_day min_temp_c AnalyzeClaims.six_years six_years_details).
  vm_compute. reflexivity.
Defined.

Lemma month_breakdown_witness :
  StronglySorted Z.lt (by_month six_years_details).*1
  ∧ (∀ m n, (m, n) ∈ by_month six_years_details ↔
       (1 ≤ n)%nat
       ∧ n = length (filter (λ r, month r = m ∧ min_temp_c r < -10)
                       AnalyzeClaims.six_years))
  ∧ sum_list (by_month six_years_details).*2
    = length (filter (λ r, min_temp_c r < -10) AnalyzeClaims.six_years).
Proof.
  apply (month_breakdown min_temp_c AnalyzeClaims.six_years
           six_years_details).
  vm_compute. reflexivity.
Defined.

End ColdExtras.

(** ** The wind statistics and the wind rose *)

Module WindExtras.
Import Wind WindSamples WindFacts.

Section Statistics.
Context `{!Float.Arithmetic}.

(** what a run of visualize_wind.py that reaches the statistics has
    computed *)
Lemma visualize_wind_Done input_exists df s :
  visualize_wind input_exists df = Done s →
  df_wind s = filter (λ r, has_wind r) (rows df)
  ∧ df_wind s ≠ []
  ∧ df_direction s = filter (λ r, valid_direction r) (df_wind s)
  ∧ average_wind_speed s = series_mean (omap wind_speed_kmph (df_wind s))
  ∧ maximum_wind_speed s = series_max (omap wind_speed_kmph (df_wind s))
  ∧ minimum_wind_speed s = series_min (omap wind_speed_kmph (df_wind s))
  ∧ direction_counts s = value_counts (omap wind_direction (df_direction s)).
Proof.
  unfold visualize_wind. destruct input_exists; [|done]. simpl.
  destruct (bool_decide _); [|done].
  destruct (filter (λ r, has_wind r) (rows df)) as [|r0 rs] eqn:Hw; [done|].
  intros [= <-].
  cbn [df_wind df_direction average_wind_speed maximum_wind_speed
       minimum_wind_speed direction_counts].
  by split_and!.
Qed.

End Statistics.

Section Counts.
Context `{Countable K}.

Lemma value_counts_lookup_gen (labels : list K) k :
  foldr (λ k s, <[k := S (default 0%nat (s !! k))]> s)
    (∅ : gmap K nat) labels !! k
  = if decide (k ∈ labels)
    then Some (length (filter (λ x, x = k) labels)) else None.
Proof.
  induction labels as [|a labels IH]; simpl.
  - rewrite lookup_empty. by destruct (decide (k ∈ [])) as [Hin|]; [inv Hin|].
  - rewrite filter_cons. destruct (decide (a = k)) as [->|Hne].
    + rewrite lookup_insert_eq, IH.
      destruct (decide (k ∈ k :: labels)) as [_|Hn]; [|by destruct Hn; left].
      destruct (decide (k ∈ labels)) as [Hin|Hin]; simpl; [done|].
      rewrite UpdateExtras.filter_none; [done|]. by intros x Hx ->.
    + rewrite lookup_insert_ne, IH by done.
      destruct (decide (k ∈ labels)) as [Hin|Hin],
               (decide (k ∈ a :: labels)) as [Hin'|Hin']; try done.
      * destruct Hin'. by right.
      * apply elem_of_cons in Hin' as [->|?]; done.
Qed.

Lemma value_counts_sum_gen (labels : list K) :
  sum_list
    (map_to_list
       (foldr (λ k s, <[k := S (default 0%nat (s !! k))]> s)
          (∅ : gmap K nat) labels)).*2
  = length labels.
Proof.
  induction labels as [|a labels IH]; simpl.
  - by rewrite map_to_list_empty.
  - set (s := foldr (λ k s, <[k := S (default 0%nat (s !! k))]> s)
                (∅ : gmap K nat) labels) in *.
    destruct (s !! a) as [n|] eqn:Ha; cbn [default].
    + rewrite <- insert_delete_eq.
      rewrite map_to_list_insert by apply lookup_delete_eq.
      rewrite <- IH, <- (map_to_list_delete s a n Ha).
      rewrite !fmap_cons. by cbn [sum_list_with id snd].
    + rewrite map_to_list_insert by done.
      rewrite fmap_cons. cbn [sum_list_with id snd]. by rewrite IH.
Qed.

End Counts.

Lemma count_omap {A} (f : A → option string) (l : list A) k :
  length (filter (λ x, x = k) (omap f l))
  = length (filter (λ a, f a = Some k) l).
Proof.
  induction l as [|a l IH]; [done|].
  cbn [omap list_omap]. rewrite filter_cons.
  destruct (f a) as [k'|] eqn:Ea.
  - rewrite filter_cons. destruct (decide (k' = k)) as [->|Hne].
    + rewrite decide_True by done. simpl. by rewrite IH.
    + rewrite decide_False by congruence. done.
  - rewrite decide_False by done. done.
Qed.

Section Rose.
Context `{!Float.Arithmetic}.

(** X14 (the wind rose, visualize_wind.py lines 101-106 and 158-165): the
    frequency table has an entry exactly for the labels among the sixteen
    compass points that some day with wind carries; the entry is the number
    of days with wind of that direction and is never 0; the entries add up
    to the number of days with a valid direction, the denominator of the
    percentages; and these days are among the days with wind. *)
Theorem direction_frequency input_exists df s :
  visualize_wind input_exists df = Done s →
  (∀ k n, direction_counts s !! k = Some n ↔
     k ∈ direction_keys ∧ (1 ≤ n)%nat
     ∧ n = length (filter (λ r, wind_direction r = Some k) (df_wind s)))
  ∧ sum_list (map_to_list (direction_counts s)).*2 = length (df_direction s)
  ∧ (length (df_direction s) ≤ length (df_wind s))%nat
  ∧ (length (df_wind s) ≤ length (rows df))%nat.
Proof.
  intros (Hw & _ & Hd & _ & _ & _ & Hc)%visualize_wind_Done.
  assert (∀ k, k ∈ direction_keys →
            length (filter (λ x, x = k) (omap wind_direction (df_direction s)))
            = length (filter (λ r, wind_direction r = Some k) (df_wind s)))
    as Ecount.
  { intros k Hk. rewrite count_omap, Hd, list_filter_filter.
    f_equal. apply list_filter_iff. intros r. split; [tauto|].
    intros Hr. split; [done|]. unfold valid_direction. rewrite Hr.
    by apply bool_decide_pack. }
  assert (∀ k, k ∈ omap wind_direction (df_direction s) →
               k ∈ direction_keys) as Hkeys.
  { intros k (r & Hr & Hk)%list_elem_of_omap. rewrite Hd in Hr.
    apply list_elem_of_filter in Hr as [Hv _]. unfold valid_direction in Hv.
    rewrite Hk in Hv. by apply bool_decide_unpack in Hv. }
  split_and!.
  - intros k n. rewrite Hc. unfold value_counts.
    rewrite value_counts_lookup_gen. case_decide as Hin.
    + specialize (Hkeys k Hin) as Hk. rewrite (Ecount k Hk) in *.
      split.
      * intros [= <-]. split_and!; [done| |done].
        rewrite <- (Ecount k Hk).
        assert (k ∈ filter (λ x, x = k)
                      (omap wind_direction (df_direction s))) as Hf
          by (by apply list_elem_of_filter).
        apply list_elem_of_lookup in Hf as [i Hi].
        apply lookup_lt_Some in Hi. lia.
      * by intros (_ & _ & ->).
    + split; [done|]. intros (Hk & Hn & ->). exfalso.
      rewrite <- (Ecount k Hk) in Hn.
      destruct (filter (λ x, x = k) (omap wind_direction (df_direction s)))
        as [|x xs] eqn:Hf; [simpl in Hn; lia|].
      assert (x ∈ filter (λ x, x = k)
                    (omap wind_direction (df_direction s))) as Hx
        by (rewrite Hf; left).
      apply list_elem_of_filter in Hx as [-> Hx]. done.
  - rewrite Hc. unfold value_counts. rewrite value_counts_sum_gen.
    assert (∀ l, Forall (λ r, valid_direction r) l →
                 length (omap wind_direction l) = length l) as Hall.
    { induction 1 as [|r l Hr _ IH]; [done|].
      cbn [omap list_omap]. unfold valid_direction in Hr.
      destruct (wind_direction r); [|done]. simpl. by rewrite IH. }
    apply Hall. rewrite Hd. apply Forall_forall.
    by intros r [? _]%list_elem_of_filter.
  - rewrite Hd. apply length_filter.
  - rewrite Hw. apply length_filter.
Qed.

End Rose.

Section RoseSample.
#[local] Existing Instance Float.exact.

Lemma direction_frequency_witness :
  ∃ s, visualize_wind true updated_frame = Done s
    ∧ (∀ k n, direction_counts s !! k = Some n ↔
         k ∈ direction_keys ∧ (1 ≤ n)%nat
         ∧ n = length (filter (λ r, wind_direction r = Some k) (df_wind s)))
    ∧ sum_list (map_to_list (direction_counts s)).*2
      = length (df_direction s)
    ∧ (length (df_direction s) ≤ length (df_wind s))%nat
    ∧ (length (df_wind s) ≤ length (rows updated_frame))%nat.
Proof.
  eexists. split; [reflexivity|].
  apply (direction_frequency true updated_frame). reflexivity.
Defined.

End RoseSample.

(** *** The three wind speed statistics *)

Lemma series_min_le cells mn :
  series_min cells = Some mn → ∀ c, c ∈ cells → (mn <= c)%Q.
Proof.
  destruct cells as [|c0 cs]; [done|]. intros [= <-].
  induction cs as [|a cs IH]; intros c Hc.
  - apply list_elem_of_singleton in Hc as ->. apply Qle_refl.
  - cbn [foldr].
    assert (c = a ∨ c ∈ c0 :: cs) as [->|Hc']
      by (rewrite !elem_of_cons in Hc; rewrite elem_of_cons; tauto).
    + apply Q.le_min_l.
    + eapply Qle_trans; [apply Q.le_min_r|by apply IH].
Qed.

Lemma series_max_ge cells mx :
  series_max cells = Some mx → ∀ c, c ∈ cells → (c <= mx)%Q.
Proof.
  destruct cells as [|c0 cs]; [done|]. intros [= <-].
  induction cs as [|a cs IH]; intros c Hc.
  - apply list_elem_of_singleton in Hc as ->. apply Qle_refl.
  - cbn [foldr].
    assert (c = a ∨ c ∈ c0 :: cs) as [->|Hc']
      by (rewrite !elem_of_cons in Hc; rewrite elem_of_cons; tauto).
    + apply Q.le_max_l.
    + eapply Qle_trans; [by apply IH|apply Q.le_max_r].
Qed.

(** the least and the greatest cell are cells *)
Lemma Qmin_either a b : Qmin a b = a ∨ Qmin a b = b.
Proof. unfold Qmin, GenericMinMax.gmin. destruct (a ?= b)%Q; auto. Qed.

Lemma Qmax_either a b : Qmax a b = a ∨ Qmax a b = b.
Proof. unfold Qmax, GenericMinMax.gmax. destruct (a ?= b)%Q; auto. Qed.

Lemma series_min_elem_of cells mn : series_min cells = Some mn → mn ∈ cells.
Proof.
  destruct cells as [|c0 cs]; [done|]. intros [= <-].
  induction cs as [|a cs IH]; [left|]. cbn [foldr].
  destruct (Qmin_either a (foldr Qmin c0 cs)) as [->| ->]; [right; left|].
  apply elem_of_cons in IH as [->|IH]; [left|by do 2 right].
Qed.

Lemma series_max_elem_of cells mx : series_max cells = Some mx → mx ∈ cells.
Proof.
  destruct cells as [|c0 cs]; [done|]. intros [= <-].
  induction cs as [|a cs IH]; [left|]. cbn [foldr].
  destruct (Qmax_either a (foldr Qmax c0 cs)) as [->| ->]; [right; left|].
  apply elem_of_cons in IH as [->|IH]; [left|by do 2 right].
Qed.

Section Order.
Context `{!Float.Arithmetic}.

(** X15 (the wind statistics, visualize_wind.py lines 40-45 and 151-153):
    a run that reaches the statistics prints all three of them; the
    minimum is above 0 and not above the maximum, each of the two is the
    speed of a day plotted, and the speed of every day plotted lies between
    them. *)
Theorem wind_speed_order input_exists df s :
  visualize_wind input_exists df = Done s →
  ∃ mn a mx,
    minimum_wind_speed s = Some mn
    ∧ average_wind_speed s = Some a
    ∧ maximum_wind_speed s = Some mx
    ∧ (0 < mn)%Q ∧ (mn <= mx)%Q
    ∧ (∀ r, r ∈ df_wind s →
         ∃ q, wind_speed_kmph r = Some q ∧ (mn <= q)%Q ∧ (q <= mx)%Q)
    ∧ (∃ r, r ∈ df_wind s ∧ wind_speed_kmph r = Some mn)
    ∧ (∃ r, r ∈ df_wind s ∧ wind_speed_kmph r = Some mx).
Proof.
  intros (Hw & Hne & _ & Ha & Hmx & Hmn & _)%visualize_wind_Done.
  set (speeds := omap wind_speed_kmph (df_wind s)) in *.
  assert (∀ r, r ∈ df_wind s →
            ∃ q, wind_speed_kmph r = Some q ∧ q ∈ speeds ∧ (0 < q)%Q)
    as Hrow.
  { intros r Hr. pose proof Hr as Hr'. rewrite Hw in Hr'.
    apply list_elem_of_filter in Hr' as [Hr' _].
    apply has_wind_positive in Hr' as (q & Hq & Hpos).
    exists q. split_and!; [done| |done].
    apply list_elem_of_omap. by exists r. }
  assert (speeds ≠ []) as Hsp.
  { destruct (df_wind s) as [|r0 rs] eqn:E; [done|].
    destruct (Hrow r0) as (q & _ & Hq & _); [left|].
    intros Hnil. rewrite Hnil in Hq. by inv Hq. }
  destruct (series_min_positive speeds Hsp) as (mn & Emn & Hpos).
  { intros q Hq. apply (speeds_positive (rows df) q). by rewrite <- Hw. }
  destruct speeds as [|c cs] eqn:Esp; [done|].
  exists mn, (Float.mean (c :: cs)), (foldr Qmax c cs).
  rewrite Hmn, Ha, Hmx.
  assert (∀ q, q ∈ c :: cs → (mn <= q)%Q ∧ (q <= foldr Qmax c cs)%Q) as Hb.
  { intros q Hq. split.
    - by apply (series_min_le (c :: cs)).
    - by apply (series_max_ge (c :: cs)). }
  assert (∀ q, q ∈ c :: cs → ∃ r, r ∈ df_wind s ∧ wind_speed_kmph r = Some q)
    as Hcell.
  { intros q Hq. rewrite <- Esp in Hq. unfold speeds in Hq.
    apply list_elem_of_omap in Hq as (r & Hr & Hq). by exists r. }
  split_and!; try done.
  - apply Hb. by apply series_min_elem_of.
  - intros r Hr. destruct (Hrow r Hr) as (q & Hq & Hin & _).
    exists q. split; [done|]. by apply Hb.
  - by apply Hcell, series_min_elem_of.
  - apply Hcell. by apply (series_max_elem_of (c :: cs)).
Qed.

End Order.

Section OrderSample.
#[local] Existing Instance Float.exact.

Lemma wind_speed_order_witness :
  ∃ s, visualize_wind true updated_frame = Done s
    ∧ ∃ mn a mx,
        minimum_wind_speed s = Some mn
        ∧ average_wind_speed s = Some a
        ∧ maximum_wind_speed s = Some mx
        ∧ (0 < mn)%Q ∧ (mn <= mx)%Q
        ∧ (∀ r, r ∈ df_wind s →
             ∃ q, wind_speed_kmph r = Some q ∧ (mn <= q)%Q ∧ (q <= mx)%Q)
        ∧ (∃ r, r ∈ df_wind s ∧ wind_speed_kmph r = Some mn)
        ∧ (∃ r, r ∈ df_wind s ∧ wind_speed_kmph r = Some mx).
Proof.
  eexists. split; [reflexivity|].
  apply (wind_speed_order true updated_frame). reflexivity.
Defined.

End OrderSample.

End WindExtras.

(** ** From the update to the wind plots: days that are never shown *)

Module CalmExtras.
Import Update Wind WindFieldFacts WindFacts.

(** [q > 0] on a whole number *)
Lemma Qpositive_whole q k :
  (q == inject_Z k)%Q → Qpositive q = bool_decide (0 < k).
Proof.
  intros Hq. unfold Qpositive.
  destruct (Qle_bool q (0 # 1)) eqn:E; simpl.
  - apply Qle_bool_iff in E. rewrite Hq in E.
    change (0 # 1)%Q with (inject_Z 0) in E. rewrite <- Zle_Qle in E.
    symmetry. apply bool_decide_eq_false. lia.
  - symmetry. apply bool_decide_eq_true.
    destruct (decide (0 < k)) as [|Hk]; [done|]. exfalso.
    assert (Qle_bool q (0 # 1) = true) as E'; [|congruence].
    apply Qle_bool_iff. rewrite Hq.
    change (0 # 1)%Q with (inject_Z 0). rewrite <- Zle_Qle. lia.
Qed.

Section Calm.
Context `{!Float.Arithmetic}.

(** X16 (days without wind, update_digby_temperature.py lines 141-157 and
    visualize_wind.py lines 40-45): a fetched day without a usable wind
    speed sample is stored with a wind speed that visualize_wind.py does not
    count as wind data; a day with one reading of a whole number of km/h is
    counted exactly when that number is above 0, so a reading of 0 km/h is
    left out as well; and on a file with the wind column whose rows are all
    fetched days without a usable sample the script stops with exit status
    1 and the message that no wind data is available. *)
Theorem calm_days_not_plotted day :
  let samples := omap windspeedKmph (default [empty_hourly] (hourly day)) in
  (samples = [] → has_wind (make_record day) = false)
  ∧ (∀ h x k, hourly day = Some [h] → windspeedKmph h = Some x →
       (x == inject_Z k)%Q → Z.abs k ≤ 2 ^ 53 →
       has_wind (make_record day) = bool_decide (0 < k))
  ∧ (∀ header days,
       "wind_speed_kmph" ∈ header →
       Forall (λ d, omap windspeedKmph (default [empty_hourly] (hourly d))
                    = []) days →
       visualize_wind true (mkDataFrame header (make_record <$> days))
       = Exit 1 "No wind data available to visualize.").
Proof.
  assert (∀ d, omap windspeedKmph (default [empty_hourly] (hourly d)) = [] →
               has_wind (make_record d) = false) as Hnone.
  { intros d Hd. destruct (no_speed d Hd) as (q & Hq & E).
    unfold has_wind. rewrite Hq.
    by rewrite (Qpositive_whole q 0). }
  intros samples. split_and!.
  - apply Hnone.
  - intros h x k Hh Hx Hk Hb.
    destruct (single_speed day h x k Hh Hx Hk Hb) as (q & Hq & E).
    unfold has_wind. rewrite Hq. by apply Qpositive_whole.
  - intros header days Hcol Hdays. unfold visualize_wind.
    cbn [negb columns rows]. rewrite bool_decide_eq_true_2 by done.
    rewrite UpdateExtras.filter_none; [done|].
    intros r (d & -> & Hd)%list_elem_of_fmap.
    rewrite Forall_forall in Hdays. rewrite (Hnone d (Hdays d Hd)).
    simpl. tauto.
Qed.

End Calm.

End CalmExtras.

(** ** The interactive charts: what the grouped series hold *)

Module ChartExtras.
Import Wind WindSamples YearFacts.

Section Groupby.
Context `{Countable K}.
Variable key : Row → K.
Variable column : Row → option Q.
Variable agg : list Q → option Q.

(** a grouped series has one entry per key that occurs, the aggregate of
    the cells of the rows with that key *)
Lemma groupby_lookup df k v :
  (list_to_map
     ((λ k, (k, agg (omap column (filter (λ r, key r = k) df))))
      <$> Py.unique (key <$> df)) : gmap K (option Q)) !! k = Some v
  ↔ k ∈ key <$> df
    ∧ v = agg (omap column (filter (λ r, key r = k) df)).
Proof.
  rewrite <- elem_of_list_to_map
    by (rewrite fst_fmap_pair; apply unique_from_NoDup).
  rewrite list_elem_of_fmap. split.
  - intros (k' & [= <- ->] & Hk). split; [|done].
    by rewrite unique_elem_of in Hk.
  - intros [Hk ->]. exists k. split; [done|]. by rewrite unique_elem_of.
Qed.

End Groupby.

Section Charts.
Context `{!Float.Arithmetic}.

(** X17 (the grouped series of plot_interactive_wind.py, lines 36-49 and
    200): a run that reaches the charts has a monthly average exactly for
    the (year, month) pairs that have a row, and it is the mean of the wind
    speed cells of all rows of that month that are not empty, the days
    recorded with speed 0 included (visualize_wind.py leaves those out);
    the peak gust of a year is the greatest gust cell of the rows of that
    year; and every month charted belongs to a year with a peak gust
    entry. *)
Theorem chart_groups input_exists df c :
  plot_interactive_wind input_exists df = Done c →
  (∀ y m v, monthly_avg c !! (y, m) = Some v ↔
     (∃ r, r ∈ rows df ∧ Analyze.year r = y ∧ Analyze.month r = m)
     ∧ v = series_mean
             (omap wind_speed_kmph
                (filter (λ r, (Analyze.year r, Analyze.month r) = (y, m))
                   (rows df))))
  ∧ (∀ y v, yearly_max_gust c !! y = Some v ↔
       (∃ r, r ∈ rows df ∧ Analyze.year r = y)
       ∧ v = series_max
               (omap wind_gust_kmph
                  (filter (λ r, Analyze.year r = y) (rows df))))
  ∧ (∀ y m, is_Some (monthly_avg c !! (y, m)) →
       is_Some (yearly_max_gust c !! y)).
Proof.
  unfold plot_interactive_wind. destruct input_exists; [|done]. simpl.
  destruct (bool_decide ("wind_speed_kmph" ∈ columns df)); [|done].
  destruct (bool_decide ("wind_gust_kmph" ∈ columns df)); [|done].
  intros [= <-]. cbn [monthly_avg yearly_max_gust].
  unfold groupby_mean, groupby_max.
  assert (∀ y m,
            (y, m) ∈ (λ r, (Analyze.year r, Analyze.month r)) <$> rows df
            ↔ ∃ r, r ∈ rows df ∧ Analyze.year r = y ∧ Analyze.month r = m)
    as Hym.
  { intros y m. rewrite list_elem_of_fmap. split.
    - intros (r & [= -> ->] & Hr). by exists r.
    - intros (r & Hr & <- & <-). by exists r. }
  assert (∀ y, y ∈ Analyze.year <$> rows df
               ↔ ∃ r, r ∈ rows df ∧ Analyze.year r = y) as Hy.
  { intros y. rewrite list_elem_of_fmap. split.
    - intros (r & -> & Hr). by exists r.
    - intros (r & Hr & <-). by exists r. }
  split_and!.
  - intros y m v. by rewrite groupby_lookup, Hym.
  - intros y v. by rewrite groupby_lookup, Hy.
  - intros y m [v Hv]. apply groupby_lookup in Hv as [Hin _].
    apply Hym in Hin as (r & Hr & <- & _).
    eexists. apply groupby_lookup. split; [|done]. apply Hy. by exists r.
Qed.

End Charts.

Section ChartsSample.
#[local] Existing Instance Float.exact.

Lemma chart_groups_witness :
  ∃ c, plot_interactive_wind true updated_frame = Done c
    ∧ (∀ y m v, monthly_avg c !! (y, m) = Some v ↔
         (∃ r, r ∈ rows updated_frame
               ∧ Analyze.year r = y ∧ Analyze.month r = m)
         ∧ v = series_mean
                 (omap wind_speed_kmph
                    (filter (λ r, (Analyze.year r, Analyze.month r) = (y, m))
                       (rows updated_frame))))
    ∧ (∀ y v, yearly_max_gust c !! y = Some v ↔
         (∃ r, r ∈ rows updated_frame ∧ Analyze.year r = y)
         ∧ v = series_max
                 (omap wind_gust_kmph
                    (filter (λ r, Analyze.year r = y) (rows updated_frame))))
    ∧ (∀ y m, is_Some (monthly_avg c !! (y, m)) →
         is_Some (yearly_max_gust c !! y)).
Proof.
  eexists. split; [reflexivity|].
  apply (chart_groups true updated_frame). reflexivity.
Defined.

End ChartsSample.

End ChartExtras.

(** ** The months to fetch *)

Module MonthsExtras.
Import Calendar Update Months YearFacts.

(** the calendar functions, evaluated on every day from 2020-01-01 to
    2039-12-31 *)
Lemma days_checked :
  forallb day_step (seqZ FIRST_DAY (LAST_DAY - FIRST_DAY + 1)) = true.
Proof. vm_compute. reflexivity. Qed.

Lemma forallb_range (f : Z → bool) lo hi d :
  forallb f (seqZ lo (hi - lo + 1)) = true → lo ≤ d ≤ hi → f d = true.
Proof.
  intros Hall Hd. rewrite forallb_forall in Hall.
  apply Hall, list_elem_of_In, elem_of_seqZ. lia.
Qed.

Lemma day_step_true d : FIRST_DAY ≤ d ≤ LAST_DAY → day_step d = true.
Proof. exact (forallb_range day_step FIRST_DAY LAST_DAY d days_checked). Qed.

Lemma day_step_spec d :
  FIRST_DAY ≤ d ≤ LAST_DAY →
  d < next_month d
  ∧ ((d + 1 < next_month d ∧ year_month (d + 1) = year_month d)
     ∨ (d + 1 = next_month d
        ∧ month_index (year_month (d + 1))
          = month_index (year_month d) + 1)).
Proof.
  intros Hd. pose proof (day_step_true d Hd) as Hstep.
  unfold day_step in Hstep.
  apply andb_prop in Hstep as [H1 H2]. apply Z.ltb_lt in H1.
  split; [done|]. apply orb_prop in H2 as [H2|H2];
    apply andb_prop in H2 as [H3 H4].
  - left. apply Z.ltb_lt in H3. by apply bool_decide_eq_true in H4.
  - right. apply Z.eqb_eq in H3. by apply Z.eqb_eq in H4.
Qed.

Lemma next_month_ext c d : year_month d = year_month c →
  next_month d = next_month c.
Proof. unfold year_month, next_month. by intros [= -> ->]. Qed.

(** from a day [c] on, the days before the move's target are in the month
    of [c], and the days from the target on are in later months *)
Lemma month_of_days c n :
  FIRST_DAY ≤ c ≤ LAST_DAY → c + Z.of_nat n ≤ LAST_DAY + 1 →
  (c + Z.of_nat n < next_month c →
   year_month (c + Z.of_nat n) = year_month c)
  ∧ (next_month c ≤ c + Z.of_nat n →
     month_index (year_month c)
     < month_index (year_month (c + Z.of_nat n))).
Proof.
  intros Hlo. induction n as [|n IH]; intros Hhi.
  - replace (c + Z.of_nat 0) with c by lia.
    split; [done|]. intros Hle.
    destruct (day_step_spec c) as [Hlt _]; lia.
  - destruct IH as [IH1 IH2]; [lia|].
    replace (c + Z.of_nat (S n)) with (c + Z.of_nat n + 1) by lia.
    destruct (day_step_spec (c + Z.of_nat n)) as [Hlt Hstep]; [lia|].
    destruct (decide (c + Z.of_nat n < next_month c)) as [Hin|Hout].
    + specialize (IH1 Hin). rewrite (next_month_ext c _ IH1) in Hstep, Hlt.
      destruct Hstep as [[H1 H2]|[H1 H2]].
      * split; [intros _; by rewrite H2|lia].
      * split; [lia|]. intros _. rewrite H2, IH1. lia.
    + specialize (IH2 ltac:(lia)).
      split; [lia|]. intros _.
      destruct Hstep as [[_ H2]|[_ H2]]; rewrite H2; lia.
Qed.

Lemma months_loop_spec today fuel : ∀ current,
  FIRST_DAY ≤ current → today ≤ LAST_DAY →
  (Z.to_nat (today - current + 1) ≤ fuel)%nat →
  (∀ d, current ≤ d ≤ today → year_month d ∈ months_loop fuel current today)
  ∧ (∀ p, p ∈ months_loop fuel current today →
       ∃ d, current ≤ d ≤ today ∧ p = year_month d)
  ∧ StronglySorted (λ a b, month_index a < month_index b)
      (months_loop fuel current today).
Proof.
  induction fuel as [|fuel IH]; intros current Hlo Hhi Hfuel.
  - simpl. split_and!; [intros d Hd; lia|by inversion 1|constructor].
  - cbn [months_loop]. destruct (current <=? today) eqn:Hle.
    2:{ apply Z.leb_gt in Hle.
        split_and!; [intros d Hd; lia|by inversion 1|constructor]. }
    apply Z.leb_le in Hle.
    change (if month_of current =? 12
            then ymd2ord (year_of current + 1) 1 1
            else ymd2ord (year_of current) (month_of current + 1) 1)
      with (next_month current).
    change (year_of current, month_of current) with (year_month current).
    destruct (day_step_spec current) as [Hnext _]; [lia|].
    destruct (IH (next_month current)) as (IH1 & IH2 & IH3); [lia..|].
    split_and!.
    + intros d Hd. apply elem_of_cons.
      destruct (decide (d < next_month current)) as [Hin|Hout].
      * left.
        destruct (month_of_days current (Z.to_nat (d - current)))
          as [M1 _]; [lia..|].
        replace (current + Z.of_nat (Z.to_nat (d - current))) with d in M1
          by lia.
        by apply M1.
      * right. apply IH1. lia.
    + intros p [->|Hp]%elem_of_cons.
      * exists current. split; [lia|done].
      * destruct (IH2 p Hp) as (d & Hd & ->). exists d. split; [lia|done].
    + constructor; [done|]. apply Forall_forall. intros p Hp.
      destruct (IH2 p Hp) as (d & Hd & ->).
      destruct (month_of_days current (Z.to_nat (d - current)))
        as [_ M2]; [lia..|].
      replace (current + Z.of_nat (Z.to_nat (d - current))) with d in M2
        by lia.
      apply M2. lia.
Qed.

Lemma index_strict_NoDup (l : list (Z * Z)) :
  StronglySorted (λ a b, month_index a < month_index b) l → NoDup l.
Proof.
  induction 1 as [|a l _ IH Hall]; constructor; [|done].
  intros Hin. rewrite Forall_forall in Hall. specialize (Hall a Hin). lia.
Qed.

Lemma unique_from_id {A} `{EqDecision A} (seen l : list A) :
  NoDup l → (∀ x, x ∈ l → x ∉ seen) → Py.unique_from seen l = l.
Proof.
  revert seen. induction l as [|a l IH]; intros seen Hnd Hdis; [done|].
  apply NoDup_cons in Hnd as [Ha Hnd]. simpl.
  rewrite decide_False by (apply Hdis; left). f_equal.
  apply IH; [done|]. intros x Hx [->|Hs]%elem_of_cons; [done|].
  apply (Hdis x); [by right|done].
Qed.

(** X18 (the months to fetch, lines 66-77): for a window within the years
    2020 to 2039, the list holds the month of every day from the start date
    to today, and only such months, in ascending order; the loop never
    yields a month twice, so the removal of duplicates changes nothing. *)
Theorem months_cover start_date today :
  FIRST_DAY ≤ start_date → today ≤ LAST_DAY →
  (∀ d, start_date ≤ d ≤ today →
     (year_of d, month_of d) ∈ months_to_fetch start_date today)
  ∧ (∀ p, p ∈ months_to_fetch start_date today →
       ∃ d, start_date ≤ d ≤ today ∧ p = (year_of d, month_of d))
  ∧ StronglySorted (λ a b, a.1 * 12 + a.2 < b.1 * 12 + b.2)
      (months_to_fetch start_date today)
  ∧ months_to_fetch start_date today
    = months_loop (Z.to_nat (today - start_date + 1)) start_date today.
Proof.
  intros Hlo Hhi.
  destruct (months_loop_spec today (Z.to_nat (today - start_date + 1))
              start_date Hlo Hhi) as (H1 & H2 & H3); [lia|].
  assert (months_to_fetch start_date today
          = months_loop (Z.to_nat (today - start_date + 1)) start_date today)
    as E.
  { unfold months_to_fetch, Py.unique. apply unique_from_id.
    - by apply index_strict_NoDup.
    - intros x _ Hx. by inv Hx. }
  rewrite E. by split_and!.
Qed.

Lemma months_cover_witness :
  (∀ d, Samples.jan1 + 16 ≤ d ≤ march5 →
     (year_of d, month_of d) ∈ months_to_fetch (Samples.jan1 + 16) march5)
  ∧ (∀ p, p ∈ months_to_fetch (Samples.jan1 + 16) march5 →
       ∃ d, Samples.jan1 + 16 ≤ d ≤ march5 ∧ p = (year_of d, month_of d))
  ∧ StronglySorted (λ a b, a.1 * 12 + a.2 < b.1 * 12 + b.2)
      (months_to_fetch (Samples.jan1 + 16) march5)
  ∧ months_to_fetch (Samples.jan1 + 16) march5
    = months_loop (Z.to_nat (march5 - (Samples.jan1 + 16) + 1))
        (Samples.jan1 + 16) march5.
Proof.
  apply (months_cover (Samples.jan1 + 16) march5).
  - vm_compute. discriminate.
  - vm_compute. discriminate.
Defined.

(** from 2024-01-17 to 2024-03-05 the months are January, February and
    March 2024 *)
Lemma months_to_march :
  months_to_fetch (Samples.jan1 + 16) march5 = [(2024, 1); (2024, 2); (2024, 3)].
Proof. vm_compute. reflexivity. Qed.

Section Fetched.
Context `{!Float.Arithmetic}.

(** X19 (no day of the window is missed, lines 66-77 and 129-171): with the
    stored frame and today within the years 2020 to 2039, a day that the
    API holds under its own month and that is dated after the last stored
    date and not after today makes the run reach the merge, its record is
    among the new records, and under any sort that returns a date-ordered
    permutation its date is in the frame written. *)
Theorem update_fetches_window sort_values today fetch_month_data
    df_existing last_date day days :
  max_date df_existing = Some last_date →
  FIRST_DAY ≤ last_date + 1 → today ≤ LAST_DAY →
  fetch_month_data (year_of (day_date day)) (month_of (day_date day))
  = Some days →
  day ∈ days →
  last_date < day_date day ≤ today →
  ∃ df_new df_combined,
    update sort_values today fetch_month_data (Some df_existing)
    = Updated df_new df_combined
    ∧ make_record day ∈ df_new
    ∧ (Store.sort_contract sort_values →
       day_date day ∈ dates df_combined).
Proof.
  intros Hmax Hlo Hhi Hfetch Hday Hwin.
  destruct (months_loop_spec today (Z.to_nat (today - (last_date + 1) + 1))
              (last_date + 1) Hlo Hhi) as (Hloop & _); [lia|].
  assert (∀ d, last_date + 1 ≤ d ≤ today →
            (year_of d, month_of d) ∈ months_to_fetch (last_date + 1) today)
    as Hcover.
  { intros d Hd. unfold months_to_fetch. rewrite unique_elem_of.
    by apply Hloop. }
  assert (make_record day
          ∈ new_records today fetch_month_data (last_date + 1)
              (months_to_fetch (last_date + 1) today)) as Hin.
  { unfold new_records. apply list_elem_of_In, in_flat_map.
    exists (year_of (day_date day), month_of (day_date day)). split.
    - apply list_elem_of_In, Hcover. lia.
    - apply list_elem_of_In. cbn [fst snd]. rewrite Hfetch.
      apply list_elem_of_fmap_2, list_elem_of_filter. split; [lia|done]. }
  unfold update. rewrite Hmax.
  rewrite (proj2 (Z.ltb_ge _ _)) by lia.
  destruct (new_records _ _ _ _) as [|r0 rs] eqn:Hnew; [by inv Hin|].
  eexists _, _. split_and!; [done..|].
  intros Hc. apply (MergeFacts.merge_dates _ Hc). unfold dates.
  rewrite fmap_app, elem_of_app. right.
  by apply (list_elem_of_fmap_2 date _ (make_record day)).
Qed.

End Fetched.

Section FetchedSample.
#[local] Existing Instance Float.exact.

Lemma update_fetches_window_witness :
  ∃ df_new df_combined,
    update Stable.sort_values (Samples.jan1 + 17) UpdateClaims.january_api
      (Some Samples.D16)
    = Updated df_new df_combined
    ∧ make_record UpdateClaims.three_readings ∈ df_new
    ∧ (Store.sort_contract Stable.sort_values →
       day_date UpdateClaims.three_readings ∈ dates df_combined).
Proof.
  apply (update_fetches_window Stable.sort_values (Samples.jan1 + 17)
           UpdateClaims.january_api Samples.D16 (Samples.jan1 + 15)
           UpdateClaims.three_readings
           [UpdateClaims.three_readings; UpdateClaims.one_reading]).
  - vm_compute. reflexivity.
  - vm_compute. discriminate.
  - vm_compute. discriminate.
  - vm_compute. reflexivity.
  - left.
  - split; vm_compute; [reflexivity|discriminate].
Defined.

End FetchedSample.

End MonthsExtras.

(** ** March against November *)

Module CompareExtras.
Import Analyze Wind Compare.

Lemma omap_Some_fmap {A B} (f : A → B) (l : list A) :
  omap (λ x, Some (f x)) l = f <$> l.
Proof. induction l as [|a l IH]; [done|]. cbn [omap list_omap]. by rewrite IH. Qed.

Lemma Qpositive_iff q : Qpositive q = true ↔ (0 < q)%Q.
Proof.
  unfold Qpositive. rewrite negb_true_iff. split.
  - intros Hle. apply Qnot_le_lt. intros H.
    apply Qle_bool_iff in H. congruence.
  - intros Hlt. destruct (Qle_bool q 0) eqn:E; [|done].
    apply Qle_bool_iff in E. lra.
Qed.

(** the lambda of line 46 on a cell that is not empty *)
Lemma label_November x : label (Some x) = November ↔ (0 < x)%Q.
Proof.
  unfold label. rewrite <- Qpositive_iff.
  destruct (Qpositive x); [done|]. by destruct (Qpositive (- x)).
Qed.

Lemma label_March x : label (Some x) = March ↔ (x < 0)%Q.
Proof.
  unfold label.
  destruct (Qpositive x) eqn:E1.
  - apply Qpositive_iff in E1. split; [done|]. intros H. lra.
  - destruct (Qpositive (- x)) eqn:E2.
    + apply Qpositive_iff in E2. split; [intros _; lra|done].
    + split; [done|]. intros H.
      assert (Qpositive (- x) = true) as E by (apply Qpositive_iff; lra).
      congruence.
Qed.

Section Comparison.
Context `{!Float.Arithmetic}.

(** the yearly mean of one month: an entry for the years that have a row
    of that month *)
Lemma month_avg_lookup m df y :
  month_avg m df !! y
  = match filter (λ r, year r = y ∧ month r = m) df with
    | [] => None
    | rows => Some (Some (Float.mean (avg_temp_c <$> rows)))
    end.
Proof.
  unfold month_avg, groupby_mean.
  set (l := filter (λ r, month r = m) df).
  assert (filter (λ r, year r = y ∧ month r = m) df
          = filter (λ r, year r = y) l) as E
    by (unfold l; by rewrite list_filter_filter).
  rewrite E. clear E.
  destruct (decide (y ∈ year <$> l)) as [Hin|Hout].
  - apply list_elem_of_fmap in Hin as (r & -> & Hr).
    assert (r ∈ filter (λ q, year q = year r) l) as Hf
      by (by apply list_elem_of_filter).
    destruct (filter (λ q, year q = year r) l) as [|q qs] eqn:Hq;
      [by inv Hf|].
    apply ChartExtras.groupby_lookup. split.
    + by apply list_elem_of_fmap_2.
    + rewrite Hq, omap_Some_fmap. done.
  - rewrite UpdateExtras.filter_none.
    + apply eq_None_not_Some. intros [v Hv].
      apply ChartExtras.groupby_lookup in Hv as [Hin _]. done.
    + intros r Hr Hy. apply Hout. rewrite <- Hy. by apply list_elem_of_fmap_2.
Qed.

(** X21 (the colder month, compare_march_november.py lines 29-47): the
    comparison has a line exactly for the years with a March or a November
    row; each of the two means of a line is that of the month's avg_temp_c
    cells in that year and is empty when the year has no row of the month;
    the year is labelled November or March exactly when both months have
    rows and that month's mean is the lower one; and a year with rows of
    one of the two months only is labelled Same, like a year with equal
    means. *)
Theorem colder_month_label df y :
  let mar := filter (λ r, year r = y ∧ month r = 3) df in
  let nov := filter (λ r, year r = y ∧ month r = 11) df in
  let march_avg :=
    match mar with
    | [] => None
    | _ => Some (Float.mean (avg_temp_c <$> mar))
    end in
  let november_avg :=
    match nov with
    | [] => None
    | _ => Some (Float.mean (avg_temp_c <$> nov))
    end in
  (is_Some (comparison df !! y) ↔ mar ≠ [] ∨ nov ≠ [])
  ∧ ∀ row, comparison df !! y = Some row →
      march row = march_avg
      ∧ november row = november_avg
      ∧ (colder_month row = November ↔
           ∃ a b, march_avg = Some a ∧ november_avg = Some b ∧ (b < a)%Q)
      ∧ (colder_month row = March ↔
           ∃ a b, march_avg = Some a ∧ november_avg = Some b ∧ (a < b)%Q)
      ∧ (mar = [] ∨ nov = [] → colder_month row = Same).
Proof.
  intros mar nov march_avg november_avg.
  unfold comparison. rewrite lookup_merge, !month_avg_lookup.
  fold mar nov. unfold march_avg, november_avg.
  destruct mar as [|m0 ms], nov as [|n0 ns];
    cbn [diag_None mjoin option_join].
  - split.
    + split; [by intros [? ?]|by intros [|]].
    + by intros row.
  - split; [split; [by right|by eexists]|].
    intros row [= <-]. cbn [march november colder_month].
    split_and!; try done.
    + split; [done|]. by intros (a & b & ? & _).
    + split; [done|]. by intros (a & b & ? & _).
  - split; [split; [by left|by eexists]|].
    intros row [= <-]. cbn [march november colder_month].
    split_and!; try done.
    + split; [done|]. by intros (a & b & _ & ? & _).
    + split; [done|]. by intros (a & b & _ & ? & _).
  - split; [split; [by left|by eexists]|].
    intros row [= <-]. cbn [march november colder_month difference].
    set (a := Float.mean (avg_temp_c <$> m0 :: ms)).
    set (b := Float.mean (avg_temp_c <$> n0 :: ns)).
    destruct (Float.sub_sign a b) as [Hpos Hneg].
    split; [done|]. split; [done|]. split; [|split].
    + change (label (Some (Float.sub a b)) = November
              ↔ ∃ a' b', Some a = Some a' ∧ Some b = Some b' ∧ (b' < a')%Q).
      rewrite label_November, Hpos. split.
      * intros Hlt. by exists a, b.
      * by intros (a' & b' & [= <-] & [= <-] & Hlt).
    + change (label (Some (Float.sub a b)) = March
              ↔ ∃ a' b', Some a = Some a' ∧ Some b = Some b' ∧ (a' < b')%Q).
      rewrite label_March, Hneg. split.
      * intros Hlt. by exists a, b.
      * by intros (a' & b' & [= <-] & [= <-] & Hlt).
    + by intros [|].
Qed.

End Comparison.

Section ComparisonSample.
#[local] Existing Instance Float.exact.

(** on the sample, 2024 has both months, March the colder, and 2025 has no
    November and is labelled Same *)
Lemma two_years_labels :
  colder_month <$> comparison two_years !! 2024 = Some March
  ∧ comparison two_years !! 2025 = Some march_only
  ∧ comparison two_years !! 2023 = None.
Proof. split_and!; vm_compute; reflexivity. Qed.

End ComparisonSample.

End CompareExtras.
